(** * example_xla.py: the distributed inference driver

    A shallow embedding of [src/example_xla.py] (topology set-up, rank-local
    checkpoint loading and device placement, the warm-up/timed generation
    loop and the multi-process launcher) together with the properties its
    specification states about it.

    The driver is effectful Python.  It is modelled in a state-and-exception
    monad over an explicit process state (default tensor type, [sys.stdout],
    gradient mode, wall clock) which also records, in order, every
    interaction with the outside world (file system, torch, torch_xla and the
    [llama] package).  The collaborators themselves are not part of the file
    and are taken as a record of operations, [Runtime]. *)

From Stdlib Require Import ZArith List Lia Bool PrimFloat Uint63.
From stdpp Require Import base option strings gmap list sorting pretty.

Local Open Scope Z_scope.

(** ** Python exceptions *)

Inductive exn :=
| AssertionError (msg : string)     (* a failed [assert] of the driver      *)
| IndexError                        (* list index out of range              *)
| NameError (name : string)         (* a global that was never bound        *)
| UnboundLocalError (name : string) (* a local that was never assigned      *)
| ZeroDivisionError
| OverflowError                     (* int too large to convert to float    *)
| TypeError (msg : string)
| External (what : string).         (* raised inside a collaborator         *)

Inductive result (A : Type) :=
| Ok (a : A)
| Raise (e : exn).
Arguments Ok {A} a.
Arguments Raise {A} e.

(** Outcome of a call into a collaborator: a value, or the description of
    the exception the collaborator raised. *)
Definition ext (A : Type) : Type := (string + A)%type.

(** ** Devices, tensors, default tensor types *)

Inductive Device :=
| cpu
| cuda (ordinal : nat)
| xla (ordinal : nat).

(** The argument of [torch.set_default_tensor_type]. *)
Inductive TensorType :=
| FloatTensor        (* torch.FloatTensor: the full-precision default *)
| DoubleTensor       (* torch.DoubleTensor                            *)
| BFloat16Tensor     (* torch.BFloat16Tensor                          *)
| CudaHalfTensor.    (* torch.cuda.HalfTensor                         *)

(** A tensor: its contents (opaque) and the device holding its storage. *)
Record Tensor := mkTensor {
  tdata : nat;
  tdevice : Device
}.

(** What [sys.stdout] is bound to. *)
Inductive Stream :=
| OriginalStdout
| DevNull.           (* open(os.devnull, "w") *)

#[global] Instance Device_eq_dec : EqDecision Device.
Proof. solve_decision. Defined.
#[global] Instance TensorType_eq_dec : EqDecision TensorType.
Proof. solve_decision. Defined.
#[global] Instance Tensor_eq_dec : EqDecision Tensor.
Proof. solve_decision. Defined.
#[global] Instance Stream_eq_dec : EqDecision Stream.
Proof. solve_decision. Defined.

(** ** Python built-ins used by the driver *)

(** Truth value of a [str]: only the empty string is false. *)
Definition truthy (s : string) : bool :=
  match s with
  | EmptyString => false
  | String _ _ => true
  end.

(** [sorted] on the paths yielded by [Path(dir).glob(pattern)].  All of them
    have the same parent, so [PurePath.__lt__] orders them by their last
    component, compared as Python compares [str]: lexicographically by
    character code.  The order is total and antisymmetric, hence the sorted
    list does not depend on the sorting algorithm. *)
Definition sorted (names : list string) : list string :=
  merge_sort String.le names.

(** [l[i]] for a list: negative indices count from the end, anything outside
    [-len(l) .. len(l)-1] raises [IndexError]. *)
Definition getitem {A} (l : list A) (i : Z) : result A :=
  let j := if i <? 0 then i + Z.of_nat (length l) else i in
  if j <? 0 then Raise IndexError
  else match l !! Z.to_nat j with
       | Some x => Ok x
       | None => Raise IndexError
       end.

(** [l[1:]] *)
Definition slice_from_1 {A} (l : list A) : list A := drop 1 l.

(** [range(n)] as the number of iterations of a [for] loop over it. *)
Definition range_len (n : Z) : nat := Z.to_nat n.

(** The newline character and the separator printed after every result. *)
Definition nl : string := String (Ascii.ascii_of_nat 10) EmptyString.
Definition separator : string :=
  nl +:+ "==================================" +:+ nl.

Section Model.

(** Python's [float].  The driver only moves floats around (sampling
    parameters, clock readings, latencies) and hands them to the arithmetic
    of the interpreter, which is kept abstract. *)
Context {F : Type}.

(** A number as [sum] and [/] see it: [sum] starts from the int [0]. *)
Inductive PyNum :=
| PyInt (z : Z)
| PyFloat (f : F).

(** A value read from JSON or passed as a keyword argument.  [VDict] holds
    the items of a dict, whose keys are pairwise distinct. *)
#[warnings="-register-all"]
Inductive PyVal :=
| VNone
| VBool (b : bool)
| VInt (z : Z)
| VFloat (f : F)
| VStr (s : string)
| VList (l : list PyVal)
| VDict (items : list (string * PyVal)).

(** Modelled from the spec: the classes of the [llama] package, which is
    not part of the file, as sections 3 and 6 of the spec describe them.
    An instance of [ModelArgs] (the hyperparameter manifest) is its
    attribute dictionary, a [gmap string PyVal]; a [Tokenizer] is built
    from a vocabulary path and has the property [n_words]. *)
Record Tokenizer := mkTokenizer {
  model_path : string;
  n_words : Z
}.

(** A checkpoint shard as [torch.load] returns it: named tensors. *)
Definition Checkpoint : Type := list (string * Tensor).

(** Modelled from the spec: a [Transformer] is a parameter container with
    named weights (moved by [Module.to]) and a [cache_kvs] collection, a
    Python list holding one tuple of cache tensors per layer; it keeps the
    hyperparameters it was built from. *)
Record Transformer := mkTransformer {
  params : gmap string PyVal;
  parameters : list (string * Tensor);
  cache_kvs : list (list Tensor)
}.

(** Modelled from the spec: the generation handle [LLaMA(model, tokenizer)]
    with its latency record, [latency_list] and [per_token_latency_list]. *)
Record LLaMA := mkLLaMA {
  model : Transformer;
  tokenizer : Tokenizer;
  latency_list : list F;
  per_token_latency_list : list F
}.

(** ** Observable interactions *)

(** What [print] is given.  Lines that format a float keep the value
    instead of its rendering. *)
Inductive Printed :=
| PStr (s : string)
| PLoaded (seconds : F)                       (* "Loaded in {:.2f} seconds" *)
| PEnvInfo (use_xla use_cuda use_dynamo : bool) (num_gpus : Z)
| PRunInfo (ckpt_dir : string) (n_times max_batch_size : Z)
| PMeanLatency (v : PyNum)
| PMeanPerTokenLatency (v : PyNum).

Inductive Event :=
| EPrint (to : Stream) (what : Printed)
| EManualSeed (seed : Z)
| ESetRngState (seed : Z) (device : Device)
| EOpenDevNull
| EGlob (dir pattern : string)
| ETorchLoad (dir name : string)
| EReadText (dir name : string)
| ETokenizer (path : string)
| ESetDefaultTensorType (t : TensorType)
| ETransformer (args : gmap string PyVal) (default : TensorType)
| ELoadStateDict
| EModuleTo (device : Device)
| ETensorTo (t : Tensor) (device : Device)
| EGenerate (prompts : list string) (max_gen_len : Z) (device : Device)
            (temperature top_p : F)
| EGenerated (results : list string).

(** ** Process state *)

Record Proc := mkProc {
  default_tensor_type : TensorType;   (* torch's process-global default *)
  stdout : Stream;                    (* sys.stdout                     *)
  grad_enabled : bool;                (* torch.is_grad_enabled()        *)
  ticks : nat;                        (* readings of the clock so far   *)
  trace : list Event                  (* interactions, oldest first     *)
}.

Definition log (e : Event) (st : Proc) : Proc :=
  mkProc (default_tensor_type st) (stdout st) (grad_enabled st) (ticks st)
         (trace st ++ [e]).

Definition record (evs : list Event) (st : Proc) : Proc :=
  mkProc (default_tensor_type st) (stdout st) (grad_enabled st) (ticks st)
         (trace st ++ evs).

(** ** Collaborators *)

Record Runtime := mkRuntime {
  (* process environment, read when the module is imported *)
  USE_CUDA : bool;
  USE_XLA : bool;
  USE_TORCH_DYNAMO : bool;
  GPU_NUM_DEVICES : Z;
  (* llama.xla_model_parallel *)
  get_model_parallel_rank : ext Z;
  get_model_parallel_world_size : ext Z;
  (* torch_xla.core.xla_model, bound to [xm] only when USE_XLA *)
  xla_device : ext Device;
  (* time.time(), by reading number *)
  clock : nat -> F;
  (* file system: the names matching a pattern in a directory, in the order
     the operating system lists them; torch.load; reading a text file *)
  glob : string -> string -> ext (list string);
  torch_load : string -> string -> ext Checkpoint;
  read_text : string -> string -> ext string;
  json_loads : string -> ext PyVal;
  (* llama: ModelArgs called with keyword arguments, as the attribute
     dictionary it builds,
     Tokenizer(model_path=...), Transformer(model_args) under the default
     tensor type in force, Module.load_state_dict(_, strict=False) *)
  ModelArgs_init : gmap string PyVal -> ext (gmap string PyVal);
  Tokenizer_init : string -> ext Tokenizer;
  Transformer_init : gmap string PyVal -> TensorType -> ext Transformer;
  load_state_dict : Transformer -> Checkpoint -> ext Transformer;
  (* torch: a device transfer that fails, with its message *)
  transfer_error : Tensor -> Device -> option string;
  (* llama: the sampling done by one LLaMA.generate call: the decoded
     texts, the call latency and the per-token latency it measured *)
  sample : LLaMA -> list string -> Z -> Device -> F -> F ->
           ext (list string * F * F);
  (* the interpreter's float arithmetic *)
  float_of_int : Z -> option F;        (* None: OverflowError *)
  int_truediv : Z -> Z -> option F;    (* int / int, divisor not 0 *)
  fadd : F -> F -> F;
  fsub : F -> F -> F;
  fmul : F -> F -> F;
  fdiv : F -> F -> F
}.

(** ** The monad *)

Definition M (A : Type) : Type := Proc -> result A * Proc.

Definition ret {A} (a : A) : M A := fun st => (Ok a, st).

Definition raise {A} (e : exn) : M A := fun st => (Raise e, st).

Definition bind {A B} (c : M A) (k : A -> M B) : M B :=
  fun st =>
    match c st with
    | (Ok a, st') => k a st'
    | (Raise e, st') => (Raise e, st')
    end.

Definition call {A} (r : ext A) : M A :=
  match r with
  | inr a => ret a
  | inl what => raise (External what)
  end.

Definition of_result {A} (r : result A) : M A :=
  match r with
  | Ok a => ret a
  | Raise e => raise e
  end.

Definition emit (e : Event) : M unit := fun st => (Ok tt, log e st).

(** [print(x)]: writes to whatever [sys.stdout] is bound to now. *)
Definition print (what : Printed) : M unit :=
  fun st => (Ok tt, log (EPrint (stdout st) what) st).

(** [sys.stdout = open(os.devnull, "w")] *)
Definition redirect_stdout_to_devnull : M unit :=
  fun st =>
    (Ok tt,
     mkProc (default_tensor_type st) DevNull (grad_enabled st) (ticks st)
            (trace st ++ [EOpenDevNull])).

(** [torch.set_default_tensor_type(t)] *)
Definition set_default_tensor_type (t : TensorType) : M unit :=
  fun st =>
    (Ok tt,
     mkProc t (stdout st) (grad_enabled st) (ticks st)
            (trace st ++ [ESetDefaultTensorType t])).

(** The default tensor type in force, as a tensor constructor reads it. *)
Definition get_default_tensor_type : M TensorType :=
  fun st => (Ok (default_tensor_type st), st).

(** [with torch.no_grad(): body]: gradient mode is switched off for the
    body and put back on every exit. *)
Definition no_grad {A} (body : M A) : M A :=
  fun st =>
    let prev := grad_enabled st in
    let '(r, st') :=
      body (mkProc (default_tensor_type st) (stdout st) false (ticks st)
                   (trace st)) in
    (r, mkProc (default_tensor_type st') (stdout st') prev (ticks st')
               (trace st')).

End Model.

Arguments Runtime F : clear implicits.
Arguments Proc F : clear implicits.
Arguments Event F : clear implicits.
Arguments Printed F : clear implicits.
Arguments LLaMA F : clear implicits.
Arguments Transformer F : clear implicits.
Arguments PyNum F : clear implicits.
Arguments PyVal F : clear implicits.
Arguments M F A : clear implicits.

Notation "'do' x <- c ; k" := (bind c (fun x => k))
  (at level 10, x name, c at level 100, k at level 200,
   format "'[v' 'do'  x  <-  c ; '/' k ']'").
Notation "'do' ' p <- c ; k" :=
  (bind c (fun x => match x with p => k end))
  (at level 10, p pattern, c at level 100, k at level 200,
   format "'[v' 'do'  ' p  <-  c ; '/' k ']'").
Notation "c ;;; k" := (bind c (fun _ => k))
  (at level 100, k at level 200, right associativity).

(** * The driver *)

Section Driver.

Context {F : Type} (rt : Runtime F).

(** [time.time()] *)
Definition time_time : M F F :=
  fun st =>
    (Ok (clock rt (ticks st)),
     mkProc (default_tensor_type st) (stdout st) (grad_enabled st)
            (S (ticks st)) (trace st)).

(** [xm.xla_device()]: the name [xm] exists only when the module was
    imported under USE_XLA. *)
Definition xm_xla_device : M F Device :=
  if USE_XLA rt then call (xla_device rt) else raise (NameError "xm").

(** [t.to(device)] *)
Definition tensor_to (t : Tensor) (device : Device) : M F Tensor :=
  emit (ETensorTo t device);;;
  match transfer_error rt t device with
  | Some what => raise (External what)
  | None => ret (mkTensor (tdata t) device)
  end.

(** [tuple(t.to(device) for t in ts)] *)
Fixpoint tuple_to (ts : list Tensor) (device : Device) : M F (list Tensor) :=
  match ts with
  | [] => ret []
  | t :: ts' =>
      do t' <- tensor_to t device;
      do rest <- tuple_to ts' device;
      ret (t' :: rest)
  end.

(** [model.to(device)]: every parameter is moved; [cache_kvs] is an
    ordinary attribute and stays as it is. *)
Fixpoint parameters_to (ps : list (string * Tensor)) (device : Device)
  : M F (list (string * Tensor)) :=
  match ps with
  | [] => ret []
  | (k, t) :: ps' =>
      do t' <- tensor_to t device;
      do rest <- parameters_to ps' device;
      ret ((k, t') :: rest)
  end.

Definition module_to (m : Transformer F) (device : Device) : M F (Transformer F) :=
  emit (EModuleTo device);;;
  do ps <- parameters_to (parameters m) device;
  ret (mkTransformer (params m) ps (cache_kvs m)).

(** [for i in range(len(model.cache_kvs)):
       model.cache_kvs[i] = tuple(t.to(device) for t in model.cache_kvs[i])]
    over the remaining indices [idxs]. *)
Fixpoint migrate_cache (idxs : list nat) (m : Transformer F) (device : Device)
  : M F (Transformer F) :=
  match idxs with
  | [] => ret m
  | i :: idxs' =>
      do kv <- of_result (getitem (cache_kvs m) (Z.of_nat i));
      do moved <- tuple_to kv device;
      migrate_cache idxs'
        (mkTransformer (params m) (parameters m) (<[i := moved]> (cache_kvs m)))
        device
  end.

(** The [assert] message of [load]. *)
Definition shard_count_message (n_checkpoints : nat) (world_size : Z) : string :=
  "Loading a checkpoint for MP=" +:+ pretty n_checkpoints +:+
  " but world size is " +:+ pretty world_size.

(** [**params]: the operand must be a mapping. *)
Definition kwargs_of (v : PyVal F) : M F (gmap string (PyVal F)) :=
  match v with
  | VDict items => ret (list_to_map items)
  | _ => raise (TypeError "argument after ** must be a mapping")
  end.

(** [ModelArgs(max_seq_len=.., max_batch_size=.., **params)]: a keyword
    given twice is a [TypeError] at the call. *)
Definition ModelArgs_call (max_seq_len max_batch_size : Z)
    (kw : gmap string (PyVal F)) : M F (gmap string (PyVal F)) :=
  if bool_decide (is_Some (kw !! "max_seq_len") \/
                  is_Some (kw !! "max_batch_size"))
  then raise (TypeError "got multiple values for keyword argument")
  else call (ModelArgs_init rt
               (<["max_seq_len" := VInt max_seq_len]>
                  (<["max_batch_size" := VInt max_batch_size]> kw))).

(** The dictionary literal of lines 68-73. *)
Definition explicit_params (dim n_layers n_heads : Z) (quant : bool)
  : list (string * PyVal F) :=
  [("dim", VInt dim); ("n_layers", VInt n_layers);
   ("n_heads", VInt n_heads); ("quant", VBool quant)].

(** ** [load] (lines 42-94) *)
Definition load (ckpt_dir tokenizer_path : string) (rank world_size : Z)
    (max_seq_len max_batch_size : Z) (device : Device)
    (dim n_layers n_heads : Z) (quant : bool) : M F (LLaMA F) :=
  do start_time <- time_time;
  print (PStr "Loading");;;
  do '(checkpoint, params) <-
    (if truthy ckpt_dir then
       emit (EGlob ckpt_dir "*.pth");;;
       do listing <- call (glob rt ckpt_dir "*.pth");
       let checkpoints := sorted listing in
       (if bool_decide (world_size = Z.of_nat (length checkpoints)) then ret tt
        else raise (AssertionError
                      (shard_count_message (length checkpoints) world_size)));;;
       do ckpt_path <- of_result (getitem checkpoints rank);
       emit (ETorchLoad ckpt_dir ckpt_path);;;
       do checkpoint <- call (torch_load rt ckpt_dir ckpt_path);
       emit (EReadText ckpt_dir "params.json");;;
       do text <- call (read_text rt ckpt_dir "params.json");
       do params <- call (json_loads rt text);
       ret (Some checkpoint, params)
     else
       ret (None, VDict (explicit_params dim n_layers n_heads quant)));
  do kw <- kwargs_of params;
  do model_args <- ModelArgs_call max_seq_len max_batch_size kw;
  emit (ETokenizer tokenizer_path);;;
  do tokenizer <- call (Tokenizer_init rt tokenizer_path);
  let model_args := <["vocab_size" := VInt (n_words tokenizer)]> model_args in
  (if USE_CUDA rt then set_default_tensor_type CudaHalfTensor
   else set_default_tensor_type BFloat16Tensor);;;
  do default <- get_default_tensor_type;
  emit (ETransformer model_args default);;;
  do model <- call (Transformer_init rt model_args default);
  do model <-
    (if truthy ckpt_dir then
       match checkpoint with
       | Some checkpoint =>
           emit ELoadStateDict;;;
           call (load_state_dict rt model checkpoint)
       | None => raise (UnboundLocalError "checkpoint")
       end
     else ret model);
  do model <- module_to model device;
  do model <- migrate_cache (seq 0 (length (cache_kvs model))) model device;
  set_default_tensor_type FloatTensor;;;
  let generator := mkLLaMA model tokenizer [] [] in
  do end_time <- time_time;
  print (PLoaded (fsub rt end_time start_time));;;
  ret generator.

(** ** The interpreter's arithmetic on latencies *)

(** [acc + x] inside [sum]: an int accumulator is converted first. *)
Definition py_add (acc : PyNum F) (x : F) : result (PyNum F) :=
  match acc with
  | PyInt z =>
      match float_of_int rt z with
      | Some f => Ok (PyFloat (fadd rt f x))
      | None => Raise OverflowError
      end
  | PyFloat f => Ok (PyFloat (fadd rt f x))
  end.

(** [sum(l)]: starts from the int [0] and adds from the left. *)
Fixpoint py_sum_from (acc : PyNum F) (l : list F) : result (PyNum F) :=
  match l with
  | [] => Ok acc
  | x :: l' =>
      match py_add acc x with
      | Ok acc' => py_sum_from acc' l'
      | Raise e => Raise e
      end
  end.

Definition py_sum (l : list F) : result (PyNum F) := py_sum_from (PyInt 0) l.

(** [x / n] for an int [n]: a zero divisor raises whatever [x] is (the
    conversion of [0] to float cannot fail, so testing it first is the
    interpreter's behaviour for both kinds of dividend). *)
Definition py_truediv (x : PyNum F) (n : Z) : result (PyNum F) :=
  if n =? 0 then Raise ZeroDivisionError
  else match x with
       | PyInt a =>
           match int_truediv rt a n with
           | Some q => Ok (PyFloat q)
           | None => Raise OverflowError
           end
       | PyFloat f =>
           match float_of_int rt n with
           | Some d => Ok (PyFloat (fdiv rt f d))
           | None => Raise OverflowError
           end
       end.

(** [x * n] for an int [n]. *)
Definition py_mul (x : PyNum F) (n : Z) : result (PyNum F) :=
  match x with
  | PyInt a => Ok (PyInt (a * n))
  | PyFloat f =>
      match float_of_int rt n with
      | Some d => Ok (PyFloat (fmul rt f d))
      | None => Raise OverflowError
      end
  end.

Definition result_bind {A B} (r : result A) (k : A -> result B) : result B :=
  match r with
  | Ok a => k a
  | Raise e => Raise e
  end.

(** ** [setup_model_parallel] (lines 30-39) *)
Definition setup_model_parallel : M F (Z * Z) :=
  do rank <- call (get_model_parallel_rank rt);
  do world_size <- call (get_model_parallel_world_size rt);
  emit (EManualSeed 1);;;
  do device <- xm_xla_device;
  emit (ESetRngState 1 device);;;
  ret (rank, world_size).

(** Modelled from the spec: [LLaMA.generate], of the [llama] package, which
    is not part of the file.  The spec (sections 3 and 6) has the handle
    keep [latency_list] and [per_token_latency_list], one entry appended to
    each per generation call; the texts and the timings come from the
    collaborator. *)
Definition generate (generator : LLaMA F) (prompts : list string)
    (max_gen_len : Z) (device : Device) (temperature top_p : F)
  : M F (list string * LLaMA F) :=
  emit (EGenerate prompts max_gen_len device temperature top_p);;;
  do '(results, latency, per_token) <-
    call (sample rt generator prompts max_gen_len device temperature top_p);
  emit (EGenerated results);;;
  ret (results,
       mkLLaMA (model generator) (tokenizer generator)
               (latency_list generator ++ [latency])
               (per_token_latency_list generator ++ [per_token])).

(** [for result in results: print(result); print(separator)] *)
Fixpoint print_results (results : list string) : M F unit :=
  match results with
  | [] => ret tt
  | result :: rest =>
      print (PStr result);;;
      print (PStr separator);;;
      print_results rest
  end.

(** The prompt batch of [main] (lines 118-144). *)
Definition prompts : list string := ["I believe the meaning of life is"].

(** [for _ in range(n_times)]: the timed calls (lines 152-162), [n]
    iterations left. *)
Fixpoint timed_calls (n : nat) (temperature top_p : F) (generator : LLaMA F)
  : M F (LLaMA F) :=
  match n with
  | O => ret generator
  | S n' =>
      do '(results, generator) <-
        no_grad (do device <- xm_xla_device;
                 generate generator prompts 256 device temperature top_p);
      print_results results;;;
      timed_calls n' temperature top_p generator
  end.

(** [main], lines 110-162: topology, output redirection, loading, the
    warm-up call and the timed calls. *)
Definition main_generation (tokenizer_path : string) (temperature top_p : F)
    (max_seq_len max_batch_size : Z) (ckpt_dir : string)
    (dim n_layers n_heads : Z) (quant : bool) (n_times : Z) : M F (LLaMA F) :=
  do '(rank, world_size) <- setup_model_parallel;
  (if 0 <? rank then redirect_stdout_to_devnull else ret tt);;;
  do device <- xm_xla_device;
  do generator <- load ckpt_dir tokenizer_path rank world_size max_seq_len
                       max_batch_size device dim n_layers n_heads quant;
  (* warmup *)
  do '(results, generator) <-
    no_grad (do device <- xm_xla_device;
             generate generator prompts 256 device temperature top_p);
  timed_calls (range_len n_times) temperature top_p generator.

(** [main], lines 163-167: the report. *)
Definition main_report (ckpt_dir : string) (max_batch_size n_times : Z)
    (generator : LLaMA F) : M F unit :=
  print (PStr "XLA:GPU ENV INFO:");;;
  print (PEnvInfo (USE_XLA rt) (USE_CUDA rt) (USE_TORCH_DYNAMO rt)
                  (GPU_NUM_DEVICES rt));;;
  print (PRunInfo ckpt_dir n_times max_batch_size);;;
  do mean <- of_result
    (result_bind (py_sum (slice_from_1 (latency_list generator)))
                 (fun s => py_truediv s n_times));
  print (PMeanLatency mean);;;
  do mean_per_token <- of_result
    (result_bind (py_sum (slice_from_1 (per_token_latency_list generator)))
       (fun s => result_bind (py_truediv s n_times)
                             (fun q => py_mul q 1000)));
  print (PMeanPerTokenLatency mean_per_token).

(** ** [main] (lines 97-167) *)
Definition main (tokenizer_path : string) (temperature top_p : F)
    (max_seq_len max_batch_size : Z) (ckpt_dir : string)
    (dim n_layers n_heads : Z) (quant : bool) (n_times : Z) : M F unit :=
  do generator <- main_generation tokenizer_path temperature top_p max_seq_len
                    max_batch_size ckpt_dir dim n_layers n_heads quant n_times;
  main_report ckpt_dir max_batch_size n_times generator.

End Driver.

(** ** The launcher *)

Section Launcher.

Context {F : Type}.

(** [_fn] (lines 170-185): the entry point of a spawned process; the index
    it is given is not used. *)
Definition _fn (rt : Runtime F) (idx : nat)
    (tokenizer_path : string) (temperature top_p : F)
    (max_seq_len max_batch_size : Z) (ckpt_dir : string)
    (dim n_layers n_heads : Z) (quant : bool) (n_times : Z) : M F unit :=
  main rt tokenizer_path temperature top_p max_seq_len max_batch_size
       ckpt_dir dim n_layers n_heads quant n_times.

(** The processes [xmp.spawn] can start: one per visible device, each with
    its own view of the collaborators (its rank among them) and its own
    fresh process state. *)
Record Devices := mkDevices {
  visible : nat;
  child_runtime : nat -> Runtime F;
  child_proc : nat -> Proc F
}.

(** What a launch leaves behind: the calling process and the children. *)
Record Launch := mkLaunch {
  parent : result unit * Proc F;
  children : list (result unit * Proc F)
}.

Definition succeeded (o : result unit * Proc F) : bool :=
  match fst o with
  | Ok _ => true
  | Raise _ => false
  end.

(** Modelled from the spec: [xmp.spawn(fn, args=...)] of torch_xla, as
    section 6 has it: one worker process per device, each calling
    [fn(index, *args)]; the caller waits for them and fails if one of them
    did. *)
Definition xmp_spawn (ds : Devices)
    (fn : Runtime F -> nat -> M F unit) (st : Proc F) : Launch :=
  let outcomes :=
    map (fun idx => fn (child_runtime ds idx) idx (child_proc ds idx))
        (seq 0 (visible ds)) in
  mkLaunch
    (if forallb succeeded outcomes then Ok tt
     else Raise (External "ProcessExitedException"), st)
    outcomes.

(** ** [mp_main] (lines 188-209) *)
Definition mp_main (ds : Devices) (rt : Runtime F) (mp : bool)
    (tokenizer_path : string) (temperature top_p : F)
    (max_seq_len max_batch_size : Z) (ckpt_dir : string)
    (dim n_layers n_heads : Z) (quant : bool) (n_times : Z)
    (st : Proc F) : Launch :=
  if mp && USE_XLA rt then
    xmp_spawn ds
      (fun rt' idx =>
         _fn rt' idx tokenizer_path temperature top_p max_seq_len
             max_batch_size ckpt_dir dim n_layers n_heads quant n_times)
      st
  else
    mkLaunch
      (main rt tokenizer_path temperature top_p max_seq_len max_batch_size
            ckpt_dir dim n_layers n_heads quant n_times st)
      [].

End Launcher.

(** * A concrete world

    A small instance of the collaborators on which the driver can be run:
    binary64 floats, a directory listing given as a parameter, a two-layer
    model.  [construct] says whether building the [Transformer] succeeds. *)

Module Demo.

Import PrimFloat.

(** Conversion of an int to float, exact below [2 ^ 53]; this world has no
    use for larger ints and reports them as overflowing. *)
Definition to_float (z : Z) : option float :=
  if Z.abs z <? 2 ^ 53 then
    let m := of_uint63 (Uint63.of_Z (Z.abs z)) in
    Some (if z <? 0 then opp m else m)
  else None.

(** [a / n] on ints that convert exactly: the quotient of the two floats. *)
Definition truediv (a n : Z) : option float :=
  match to_float a, to_float n with
  | Some x, Some y => Some (div x y)
  | _, _ => None
  end.

Definition defaults : gmap string (PyVal float) :=
  list_to_map [("dim", VInt 512); ("n_layers", VInt 8); ("n_heads", VInt 8);
               ("vocab_size", VInt (-1)); ("quant", VBool false);
               ("max_batch_size", VInt 32); ("max_seq_len", VInt 2048)].

Definition manifest : PyVal float :=
  VDict [("dim", VInt 64); ("n_layers", VInt 2); ("n_heads", VInt 4);
         ("vocab_size", VInt (-1))].

Definition fresh_model (args : gmap string (PyVal float))
  : Transformer float :=
  mkTransformer args
    [("tok_embeddings.weight", mkTensor 1 cpu); ("output.weight", mkTensor 2 cpu)]
    [[mkTensor 10 cpu; mkTensor 11 cpu]; [mkTensor 20 cpu; mkTensor 21 cpu]].

Definition runtime (use_xla : bool) (rank world_size : Z)
    (listing : list string) (construct : bool) : Runtime float :=
  {| USE_CUDA := false;
     USE_XLA := use_xla;
     USE_TORCH_DYNAMO := true;
     GPU_NUM_DEVICES := 0;
     get_model_parallel_rank := inr rank;
     get_model_parallel_world_size := inr world_size;
     xla_device := inr (xla (Z.to_nat rank));
     clock := fun n => of_uint63 (Uint63.of_Z (Z.of_nat n));
     glob := fun _ _ => inr listing;
     torch_load := fun _ name => inr [(name, mkTensor 7 cpu)];
     read_text := fun _ _ => inr "{}";
     json_loads := fun _ => inr manifest;
     ModelArgs_init := fun kw => inr (kw ∪ defaults);
     Tokenizer_init := fun path => inr (mkTokenizer path 32000);
     Transformer_init := fun args _ =>
       if construct then inr (fresh_model args) else inl "RuntimeError";
     load_state_dict := fun m ckpt =>
       inr (mkTransformer (params m) (ckpt ++ parameters m) (cache_kvs m));
     transfer_error := fun _ _ => None;
     sample := fun g ps _ _ _ _ =>
       inr (map (fun p => p +:+ " 42") ps,
            of_uint63 (Uint63.of_Z (Z.of_nat (length (latency_list g)) + 1)),
            one);
     float_of_int := to_float;
     int_truediv := truediv;
     fadd := add;
     fsub := sub;
     fmul := mul;
     fdiv := div |}.

Definition proc0 : Proc float := mkProc FloatTensor OriginalStdout true 0 [].

(** The command-line defaults of the sampling parameters. *)
#[warnings="-inexact-float"]
Definition temperature : float := 0.8%float.
#[warnings="-inexact-float"]
Definition top_p : float := 0.95%float.

(** A checkpoint directory of two shards, listed out of order. *)
Definition shards : list string :=
  ["consolidated.01.pth"; "consolidated.00.pth"].

(** Rank 1 of 2 loading its shard. *)
Definition loaded : result (LLaMA float) * Proc float :=
  load (runtime true 1 2 shards true) "ckpt" "tokenizer.model" 1 2 512 32
       (xla 1) 4096 32 32 false proc0.

(** A single process with explicit hyperparameters and no checkpoint. *)
Definition loaded_plain : result (LLaMA float) * Proc float :=
  load (runtime true 0 1 [] true) "" "tokenizer.model" 0 1 512 32
       (xla 0) 256 4 4 false proc0.

(** The same from a process whose default is double precision. *)
Definition loaded_from_double : result (LLaMA float) * Proc float :=
  load (runtime true 0 1 [] true) "" "tokenizer.model" 0 1 512 32
       (xla 0) 256 4 4 false (mkProc DoubleTensor OriginalStdout true 0 []).

(** The same, with a [Transformer] constructor that raises. *)
Definition load_failed : result (LLaMA float) * Proc float :=
  load (runtime true 0 1 [] false) "" "tokenizer.model" 0 1 512 32
       (xla 0) 256 4 4 false proc0.

(** [main] on the command line defaults but for [n_times], as the process
    of the given rank among two. *)
Definition run_main (rank n_times : Z) : result unit * Proc float :=
  main (runtime true rank 2 shards true) "tokenizer.model" temperature
       top_p 512 32 "" 4096 32 32 false n_times proc0.

Definition run_main_generation (n_times : Z)
  : result (LLaMA float) * Proc float :=
  main_generation (runtime true 0 2 shards true) "tokenizer.model" temperature
       top_p 512 32 "" 4096 32 32 false n_times proc0.

Definition devices : Devices :=
  mkDevices 2 (fun idx => runtime true (Z.of_nat idx) 2 shards true)
            (fun _ => proc0).

(** The given world with another content of the manifest file. *)
Definition with_manifest (rt : Runtime float) (v : PyVal float)
  : Runtime float :=
  {| USE_CUDA := USE_CUDA rt;
     USE_XLA := USE_XLA rt;
     USE_TORCH_DYNAMO := USE_TORCH_DYNAMO rt;
     GPU_NUM_DEVICES := GPU_NUM_DEVICES rt;
     get_model_parallel_rank := get_model_parallel_rank rt;
     get_model_parallel_world_size := get_model_parallel_world_size rt;
     xla_device := xla_device rt;
     clock := clock rt;
     glob := glob rt;
     torch_load := torch_load rt;
     read_text := read_text rt;
     json_loads := fun _ => inr v;
     ModelArgs_init := ModelArgs_init rt;
     Tokenizer_init := Tokenizer_init rt;
     Transformer_init := Transformer_init rt;
     load_state_dict := load_state_dict rt;
     transfer_error := transfer_error rt;
     sample := sample rt;
     float_of_int := float_of_int rt;
     int_truediv := int_truediv rt;
     fadd := fadd rt;
     fsub := fsub rt;
     fmul := fmul rt;
     fdiv := fdiv rt |}.

(** A manifest that also names the sequence length. *)
Definition manifest_with_max_seq_len : PyVal float :=
  VDict [("dim", VInt 64); ("n_layers", VInt 2); ("n_heads", VInt 4);
         ("max_seq_len", VInt 2048)].

Definition launched : Launch :=
  mp_main devices (runtime true 0 2 shards true) true "tokenizer.model"
          temperature top_p 512 32 "" 4096 32 32 false 3 proc0.

End Demo.

(** * Runs and what they leave in the trace

    Every change of the process state is recorded: the default tensor type
    and [sys.stdout] after a run can be read off the events it added, and
    each [print] went to the stream that was current when it ran. *)

Section Runs.

Context {F : Type}.

Definition replay_default (evs : list (Event F)) (d : TensorType) : TensorType :=
  fold_left
    (fun d e => match e with ESetDefaultTensorType t => t | _ => d end) evs d.

Definition replay_stdout (evs : list (Event F)) (s : Stream) : Stream :=
  fold_left (fun s e => match e with EOpenDevNull => DevNull | _ => s end) evs s.

Fixpoint coherent (s : Stream) (evs : list (Event F)) : Prop :=
  match evs with
  | [] => True
  | EPrint s' _ :: evs' => s' = s /\ coherent s evs'
  | EOpenDevNull :: evs' => coherent DevNull evs'
  | _ :: evs' => coherent s evs'
  end.

(** Events that [emit] may record: those that stand for no state change. *)
Definition inert (e : Event F) : bool :=
  match e with
  | EPrint _ _ | EOpenDevNull | ESetDefaultTensorType _ => false
  | _ => true
  end.

Definition is_generate (e : Event F) : bool :=
  match e with
  | EGenerate _ _ _ _ _ => true
  | _ => false
  end.

(** [run P st st']: [st'] is [st] after some more events, all in [P]. *)
Definition run (P : Event F -> Prop) (st st' : Proc F) : Prop :=
  exists evs,
    trace st' = trace st ++ evs /\
    Forall P evs /\
    default_tensor_type st' = replay_default evs (default_tensor_type st) /\
    stdout st' = replay_stdout evs (stdout st) /\
    coherent (stdout st) evs /\
    grad_enabled st' = grad_enabled st.

(** [spec P c Q]: whenever [c] runs, it only adds events in [P] and its
    outcome, value or exception, is in [Q]. *)
Definition spec {A} (P : Event F -> Prop) (c : M F A) (Q : result A -> Prop)
  : Prop :=
  forall st r st', c st = (r, st') -> run P st st' /\ Q r.

(** The events of the timed calls: each call, what it returned, and its
    results printed one by one, each followed by the separator. *)
Definition printed_results (s : Stream) (results : list string)
  : list (Event F) :=
  flat_map (fun x => [EPrint s (PStr x); EPrint s (PStr separator)]) results.

Definition timed_events (s : Stream) (device : Device) (temperature top_p : F)
    (batches : list (list string)) : list (Event F) :=
  flat_map
    (fun results =>
       [EGenerate prompts 256 device temperature top_p; EGenerated results]
       ++ printed_results s results)
    batches.

(** Events that leave [sys.stdout] bound as it is. *)
Definition keeps_stdout (e : Event F) : Prop := e <> EOpenDevNull.

(** Events of topology set-up and loading: no generation call, and nothing
    printed but the two progress lines of [load]. *)
Definition preparation_event (e : Event F) : Prop :=
  match e with
  | EGenerate _ _ _ _ _ | EGenerated _ => False
  | EPrint _ w => w = PStr "Loading" \/ exists seconds, w = PLoaded seconds
  | _ => True
  end.


(** The five lines of the report. *)
Definition report_events (rt : Runtime F) (s : Stream) (ckpt_dir : string)
    (n_times max_batch_size : Z) (mean mean_per_token : PyNum F)
  : list (Event F) :=
  [EPrint s (PStr "XLA:GPU ENV INFO:");
   EPrint s (PEnvInfo (USE_XLA rt) (USE_CUDA rt) (USE_TORCH_DYNAMO rt)
                      (GPU_NUM_DEVICES rt));
   EPrint s (PRunInfo ckpt_dir n_times max_batch_size);
   EPrint s (PMeanLatency mean);
   EPrint s (PMeanPerTokenLatency mean_per_token)].

(** [t.to(device)] as a value. *)
Definition moved (device : Device) (t : Tensor) : Tensor :=
  mkTensor (tdata t) device.

(** What a call of [load] that returns has added to the trace: [shard] is
    the file read, if any, [args] the hyperparameters handed to
    [Transformer], [m] the model about to be moved. *)
Definition load_trace (s : Stream) (ckpt_dir tokenizer_path : string)
    (device : Device) (shard : option string) (override : TensorType)
    (args : gmap string (PyVal F)) (m : Transformer F) (seconds : F)
  : list (Event F) :=
  [EPrint s (PStr "Loading")] ++
  match shard with
  | Some name => [EGlob ckpt_dir "*.pth"; ETorchLoad ckpt_dir name;
                  EReadText ckpt_dir "params.json"]
  | None => []
  end ++
  [ETokenizer tokenizer_path; ESetDefaultTensorType override;
   ETransformer args override] ++
  match shard with
  | Some _ => [ELoadStateDict]
  | None => []
  end ++
  EModuleTo device :: map (fun kt => ETensorTo kt.2 device) (parameters m) ++
  map (fun t => ETensorTo t device) (concat (cache_kvs m)) ++
  [ESetDefaultTensorType FloatTensor; EPrint s (PLoaded seconds)].

(** ** What [load] can do *)

Section LoadSpec.

Context (rt : Runtime F).

(** Postconditions by cases: on the value, or on the exception. *)
Definition post {A} (on_value : A -> Prop) (on_exn : exn -> Prop)
    (r : result A) : Prop :=
  match r with
  | Ok a => on_value a
  | Raise e => on_exn e
  end.

Definition is_external (e : exn) : Prop := exists what, e = External what.

Definition transfer_event (device : Device) (e : Event F) : Prop :=
  match e with
  | ETensorTo _ d | EModuleTo d => d = device
  | _ => False
  end.

(** The keyword arguments [ModelArgs] is called with, given [**params]. *)
Definition model_kwargs (max_seq_len max_batch_size : Z)
    (kw : gmap string (PyVal F)) : gmap string (PyVal F) :=
  <["max_seq_len" := VInt max_seq_len]>
    (<["max_batch_size" := VInt max_batch_size]> kw).

(** Every event a call of [load] can add. *)
Definition load_event (ckpt_dir tokenizer_path : string) (rank world_size : Z)
    (max_seq_len max_batch_size : Z) (device : Device)
    (dim n_layers n_heads : Z) (quant : bool) (e : Event F) : Prop :=
  match e with
  | EPrint _ w => w = PStr "Loading" \/ exists seconds, w = PLoaded seconds
  | EGlob d p => truthy ckpt_dir = true /\ d = ckpt_dir /\ p = "*.pth"
  | ETorchLoad d name =>
      truthy ckpt_dir = true /\ d = ckpt_dir /\
      exists listing,
        glob rt ckpt_dir "*.pth" = inr listing /\
        world_size = Z.of_nat (length (sorted listing)) /\
        getitem (sorted listing) rank = Ok name
  | EReadText d name =>
      truthy ckpt_dir = true /\ d = ckpt_dir /\ name = "params.json"
  | ETokenizer path => path = tokenizer_path
  | ESetDefaultTensorType t =>
      t = (if USE_CUDA rt then CudaHalfTensor else BFloat16Tensor) \/
      t = FloatTensor
  | ETransformer args _ =>
      exists kw margs tok,
        (truthy ckpt_dir = false ->
         kw = list_to_map (explicit_params dim n_layers n_heads quant)) /\
        ModelArgs_init rt (model_kwargs max_seq_len max_batch_size kw)
          = inr margs /\
        Tokenizer_init rt tokenizer_path = inr tok /\
        args = <["vocab_size" := VInt (n_words tok)]> margs
  | ELoadStateDict => truthy ckpt_dir = true
  | EModuleTo d | ETensorTo _ d => d = device
  | _ => False
  end.

(** Every exception a call of [load] can end in. *)
Definition load_exn (ckpt_dir : string) (rank world_size : Z) (e : exn)
  : Prop :=
  match e with
  | External _ => True
  | AssertionError msg =>
      truthy ckpt_dir = true /\
      exists listing,
        glob rt ckpt_dir "*.pth" = inr listing /\
        world_size <> Z.of_nat (length (sorted listing)) /\
        msg = shard_count_message (length (sorted listing)) world_size
  | IndexError =>
      truthy ckpt_dir = true /\
      exists listing,
        glob rt ckpt_dir "*.pth" = inr listing /\
        world_size = Z.of_nat (length (sorted listing)) /\
        getitem (sorted listing) rank = Raise IndexError
  | TypeError _ => truthy ckpt_dir = true
  | _ => False
  end.

(** The shard [load] reads for this rank. *)
Definition shard_of (ckpt_dir : string) (rank world_size : Z)
    (ckpt : Checkpoint) : Prop :=
  exists listing name,
    glob rt ckpt_dir "*.pth" = inr listing /\
    world_size = Z.of_nat (length (sorted listing)) /\
    getitem (sorted listing) rank = Ok name /\
    torch_load rt ckpt_dir name = inr ckpt.

(** Every handle a call of [load] can return: [m0] is the model as
    constructed, [m1] the model once the shard, if any, was applied. *)
Definition load_value (ckpt_dir tokenizer_path : string) (rank world_size : Z)
    (max_seq_len max_batch_size : Z) (device : Device)
    (dim n_layers n_heads : Z) (quant : bool) (g : LLaMA F) : Prop :=
  latency_list g = [] /\
  per_token_latency_list g = [] /\
  exists kw margs tok default m0 m1,
    (truthy ckpt_dir = false ->
     kw = list_to_map (explicit_params dim n_layers n_heads quant) /\
     m1 = m0) /\
    (truthy ckpt_dir = true ->
     exists ckpt,
       shard_of ckpt_dir rank world_size ckpt /\
       load_state_dict rt m0 ckpt = inr m1) /\
    ModelArgs_init rt (model_kwargs max_seq_len max_batch_size kw)
      = inr margs /\
    Tokenizer_init rt tokenizer_path = inr tok /\
    Transformer_init rt (<["vocab_size" := VInt (n_words tok)]> margs) default
      = inr m0 /\
    tokenizer g = tok /\
    model g =
      mkTransformer (params m1)
        (map (fun kt => (kt.1, moved device kt.2)) (parameters m1))
        (map (map (moved device)) (cache_kvs m1)).

End LoadSpec.

(** ** Further vocabulary *)

(** The events of [setup_model_parallel]: seeding, always with [1]. *)
Definition setup_event (e : Event F) : Prop :=
  match e with
  | EManualSeed seed | ESetRngState seed _ => seed = 1
  | _ => False
  end.

(** The events of the generation calls and of the printing of results. *)
Definition generation_event (e : Event F) : Prop :=
  match e with
  | EGenerate _ _ _ _ _ | EGenerated _ | EPrint _ (PStr _) => True
  | _ => False
  end.

(** The heading line of the report that shows the environment. *)
Definition is_env_info (e : Event F) : Prop :=
  match e with
  | EPrint _ (PEnvInfo _ _ _ _) => True
  | _ => False
  end.




(** The names of a directory that come strictly before [name]. *)
Definition names_before (name : string) (listing : list string)
  : list string :=
  filter (fun x => x <> name /\ String.le x name) listing.

End Runs.

(** * Lemmas *)

Section RunLemmas.

Context {F : Type}.

Implicit Types (st : Proc F) (evs : list (Event F)) (P : Event F -> Prop).

Lemma replay_default_app evs1 evs2 d :
  replay_default (evs1 ++ evs2) d = replay_default evs2 (replay_default evs1 d).
Proof. apply fold_left_app. Qed.

Lemma replay_stdout_app evs1 evs2 s :
  replay_stdout (evs1 ++ evs2) s = replay_stdout evs2 (replay_stdout evs1 s).
Proof. apply fold_left_app. Qed.

Lemma coherent_app evs1 evs2 s :
  coherent s (evs1 ++ evs2) <->
  coherent s evs1 /\ coherent (replay_stdout evs1 s) evs2.
Proof.
  revert s. induction evs1 as [|e evs1 IH]; intros s; simpl.
  - tauto.
  - destruct e; simpl; rewrite ?IH; tauto.
Qed.

Lemma replay_stdout_DevNull evs : replay_stdout evs DevNull = DevNull.
Proof. induction evs as [|e evs IH]; [done|]. by destruct e. Qed.

Lemma replay_stdout_unopened evs s :
  Forall (fun e => e <> EOpenDevNull) evs -> replay_stdout evs s = s.
Proof.
  induction 1 as [|e evs He _ IH]; [done|].
  by destruct e.
Qed.

Lemma replay_default_unset evs d :
  Forall (fun e => forall t, e <> ESetDefaultTensorType t) evs ->
  replay_default evs d = d.
Proof.
  induction 1 as [|e evs He _ IH]; [done|].
  destruct e; simpl; try done. by destruct (He t).
Qed.

(** Prints of a coherent run all go to the stream it started with, as long
    as the run does not rebind [sys.stdout], or started on the null device. *)
Lemma coherent_prints evs s :
  coherent s evs ->
  Forall (fun e => e <> EOpenDevNull) evs \/ s = DevNull ->
  Forall (fun e => forall s' w, e = EPrint s' w -> s' = s) evs.
Proof.
  revert s. induction evs as [|e evs IH]; intros s Hc Hs; [constructor|].
  assert (Forall (fun e => e <> EOpenDevNull) evs \/ s = DevNull) as Hs'.
  { destruct Hs as [Hs|Hs]; [left; by inversion Hs | by right]. }
  constructor.
  - intros s' w ->. simpl in Hc. tauto.
  - destruct e; simpl in Hc; try by apply IH.
    + apply IH; tauto.
    + destruct Hs as [Hs| ->]; [by inversion Hs|].
      apply IH; [done | by right].
Qed.

Lemma run_refl P st : run P st st.
Proof. exists []. rewrite app_nil_r. by repeat split. Qed.

Lemma run_trans P st1 st2 st3 : run P st1 st2 -> run P st2 st3 -> run P st1 st3.
Proof.
  intros (evs1 & Ht1 & HP1 & Hd1 & Hs1 & Hc1 & Hg1)
         (evs2 & Ht2 & HP2 & Hd2 & Hs2 & Hc2 & Hg2).
  exists (evs1 ++ evs2). repeat split.
  - by rewrite Ht2, Ht1, app_assoc.
  - by apply Forall_app.
  - by rewrite replay_default_app, <- Hd1.
  - by rewrite replay_stdout_app, <- Hs1.
  - apply coherent_app. by rewrite <- Hs1.
  - congruence.
Qed.

Lemma run_weaken P P' st st' :
  (forall e, P e -> P' e) -> run P st st' -> run P' st st'.
Proof.
  intros HPP (evs & Ht & HP & H). exists evs. repeat split; try tauto.
  eapply Forall_impl; eauto.
Qed.

Lemma run_log P e st : inert e = true -> P e -> run P st (log e st).
Proof.
  intros Hi HP. exists [e]. repeat split; [by constructor|..];
    by destruct e.
Qed.

(** ** Rules *)

Lemma spec_conseq {A} P P' (c : M F A) (Q Q' : result A -> Prop) :
  spec P c Q -> (forall e, P e -> P' e) -> (forall r, Q r -> Q' r) ->
  spec P' c Q'.
Proof.
  intros Hc HP HQ st r st' Hrun. destruct (Hc _ _ _ Hrun).
  split; [by eapply run_weaken | by apply HQ].
Qed.

Lemma spec_any {A} P (c : M F A) Q : spec P c Q -> spec P c (fun _ => True).
Proof. intros Hc. by eapply spec_conseq. Qed.

Lemma spec_ret {A} P (a : A) : spec P (ret a) (fun r => r = Ok a).
Proof. intros st r st' [= <- <-]. split; [apply run_refl | done]. Qed.

Lemma spec_raise {A} P e : spec P (@raise F A e) (fun r => r = Raise e).
Proof. intros st r st' [= <- <-]. split; [apply run_refl | done]. Qed.

Lemma spec_bind {A B} P (c : M F A) (k : A -> M F B) Q1 (Q2 : result B -> Prop) :
  spec P c Q1 ->
  (forall e, Q1 (Raise e) -> Q2 (Raise e)) ->
  (forall a, Q1 (Ok a) -> spec P (k a) Q2) ->
  spec P (bind c k) Q2.
Proof.
  intros Hc He Hk st r st' Hrun. unfold bind in Hrun.
  destruct (c st) as [[a|e] st1] eqn:Hcst; destruct (Hc _ _ _ Hcst) as [H1 HQ].
  - destruct (Hk a HQ _ _ _ Hrun). split; [by eapply run_trans | done].
  - injection Hrun as <- <-. split; [done | by apply He].
Qed.

Lemma spec_call {A} P (x : ext A) :
  spec P (@call F A x)
       (fun r => match x with
                 | inr a => r = Ok a
                 | inl what => r = Raise (External what)
                 end).
Proof. destruct x; [apply spec_raise | apply spec_ret]. Qed.

Lemma spec_of_result {A} P (x : result A) :
  spec P (@of_result F A x) (fun r => r = x).
Proof. destruct x; [apply spec_ret | apply spec_raise]. Qed.

Lemma spec_emit P e :
  inert e = true -> P e -> spec P (emit e) (fun r => r = Ok tt).
Proof. intros Hi HP st r st' [= <- <-]. split; [by apply run_log | done]. Qed.

Lemma spec_print P w :
  (forall s, P (EPrint s w)) -> spec P (print w) (fun r => r = Ok tt).
Proof.
  intros HP st r st' [= <- <-]. split; [|done].
  exists [EPrint (stdout st) w]. repeat split; simpl; auto.
Qed.

Lemma spec_set_default_tensor_type P t :
  P (ESetDefaultTensorType t) ->
  spec P (set_default_tensor_type t) (fun r => r = Ok tt).
Proof.
  intros HP st r st' [= <- <-]. split; [|done].
  exists [ESetDefaultTensorType t]. repeat split; simpl; auto.
Qed.

Lemma spec_redirect P :
  P EOpenDevNull -> spec P redirect_stdout_to_devnull (fun r => r = Ok tt).
Proof.
  intros HP st r st' [= <- <-]. split; [|done].
  exists [EOpenDevNull]. repeat split; simpl; auto.
Qed.

Lemma spec_get_default_tensor_type P :
  spec P (@get_default_tensor_type F) (fun r => exists d, r = Ok d).
Proof. intros st r st' [= <- <-]. split; [apply run_refl | by eexists]. Qed.

Lemma spec_no_grad {A} P (body : M F A) Q : spec P body Q -> spec P (no_grad body) Q.
Proof.
  intros Hb st r st' Hrun. unfold no_grad in Hrun.
  destruct (body _) as [r1 st1] eqn:Hbody. injection Hrun as <- <-.
  destruct (Hb _ _ _ Hbody) as [(evs & Ht & HP & Hd & Hs & Hc & Hg) HQ].
  split; [|done]. exists evs. by repeat split.
Qed.

End RunLemmas.

Section DriverLemmas.

Context {F : Type} (rt : Runtime F).

Implicit Types (st : Proc F) (P : Event F -> Prop).

Ltac spec_step lem :=
  eapply spec_bind; [ lem | intros ? ? | intros ? ? ].

(** A step through a collaborator call: it either raises [External], which
    must be allowed by the postcondition, or binds its value. *)
Ltac call_step_as a :=
  lazymatch goal with
  | |- spec _ (bind (call ?x) _) _ =>
      let E := fresh "E" a in
      destruct x as [?|a] eqn:E;
      [ eapply spec_bind;
        [ apply spec_raise | intros ? [= ->]; try exact I | intros ? [=] ]
      | eapply spec_bind;
        [ apply spec_ret | intros ? [=] | intros ? [= ->] ] ]
  end.

Tactic Notation "call_step" "as" ident(a) := call_step_as a.

Ltac emit_step :=
  eapply spec_bind;
  [ apply spec_emit; [reflexivity|] | intros ? [=] | intros [] _ ].

Ltac finish_ret :=
  eapply spec_conseq; [apply spec_ret | done | intros ? ->; simpl].

Ltac finish_raise :=
  eapply spec_conseq; [apply spec_raise | done | intros ? ->; simpl].

Lemma getitem_nat {A} (l : list A) (i : nat) (x : A) :
  l !! i = Some x -> getitem l (Z.of_nat i) = Ok x.
Proof.
  intros Hl. unfold getitem.
  destruct (Z.ltb_spec (Z.of_nat i) 0) as [?|_]; [lia|].
  destruct (Z.ltb_spec (Z.of_nat i) 0) as [?|_]; [lia|].
  by rewrite Nat2Z.id, Hl.
Qed.

Lemma getitem_Raise {A} (l : list A) (i : Z) (e : exn) :
  getitem l i = Raise e -> e = IndexError.
Proof. unfold getitem. repeat case_match; congruence. Qed.

Lemma spec_time_time P : spec P (time_time rt) (post (fun _ => True) (fun _ => False)).
Proof.
  intros st r st' [= <- <-]. split; [|done].
  exists []. rewrite app_nil_r. by repeat split.
Qed.

Lemma spec_xm_xla_device P :
  spec P (xm_xla_device rt)
       (post (fun d => USE_XLA rt = true /\ xla_device rt = inr d)
             (fun e => USE_XLA rt = false /\ e = NameError "xm" \/
                       is_external e)).
Proof.
  unfold xm_xla_device. destruct (USE_XLA rt).
  - eapply spec_conseq; [apply spec_call | done |].
    intros r. destruct (xla_device rt); intros ->; simpl; eauto.
    right. by eexists.
  - eapply spec_conseq; [apply spec_raise | done |].
    intros r ->. simpl. by left.
Qed.

Lemma spec_tensor_to t device :
  spec (transfer_event device) (tensor_to rt t device)
       (post (fun t' => t' = moved device t) is_external).
Proof.
  unfold tensor_to. spec_step ltac:(by apply spec_emit).
  { done. }
  destruct (transfer_error rt t device).
  - eapply spec_conseq; [apply spec_raise | done |].
    intros r ->. by eexists.
  - eapply spec_conseq; [apply spec_ret | done |]. by intros r ->.
Qed.

Lemma spec_tuple_to ts device :
  spec (transfer_event device) (tuple_to rt ts device)
       (post (fun ts' => ts' = map (moved device) ts) is_external).
Proof.
  induction ts as [|t ts IH]; simpl.
  - eapply spec_conseq; [apply spec_ret | done |]. by intros r ->.
  - spec_step ltac:(apply spec_tensor_to); [done|].
    simpl in *. subst. spec_step ltac:(apply IH); [done|].
    simpl in *. subst.
    eapply spec_conseq; [apply spec_ret | done |]. by intros r ->.
Qed.

Lemma spec_parameters_to ps device :
  spec (transfer_event device) (parameters_to rt ps device)
       (post (fun ps' => ps' = map (fun kt => (kt.1, moved device kt.2)) ps)
             is_external).
Proof.
  induction ps as [|[k t] ps IH]; simpl.
  - eapply spec_conseq; [apply spec_ret | done |]. by intros r ->.
  - spec_step ltac:(apply spec_tensor_to); [done|].
    simpl in *. subst. spec_step ltac:(apply IH); [done|].
    simpl in *. subst.
    eapply spec_conseq; [apply spec_ret | done |]. by intros r ->.
Qed.

Lemma spec_module_to m device :
  spec (transfer_event device) (module_to rt m device)
       (post (fun m' =>
                m' = mkTransformer (params m)
                       (map (fun kt => (kt.1, moved device kt.2)) (parameters m))
                       (cache_kvs m))
             is_external).
Proof.
  unfold module_to. spec_step ltac:(by apply spec_emit); [done|].
  spec_step ltac:(apply spec_parameters_to); [done|].
  simpl in *. subst.
  eapply spec_conseq; [apply spec_ret | done |]. by intros r ->.
Qed.

(** The loop over [range(len(model.cache_kvs))], started at index [k]:
    every remaining tuple is replaced by its moved copy, and indexing never
    fails. *)
Lemma spec_migrate_cache n k m device :
  (k + n)%nat = length (cache_kvs m) ->
  spec (transfer_event device) (migrate_cache rt (seq k n) m device)
       (post (fun m' =>
                m' = mkTransformer (params m) (parameters m)
                       (take k (cache_kvs m) ++
                        map (map (moved device)) (drop k (cache_kvs m))))
             is_external).
Proof.
  revert k m. induction n as [|n IH]; intros k m Hlen; simpl.
  - eapply spec_conseq; [apply spec_ret | done |]. intros r ->. simpl.
    rewrite drop_ge, app_nil_r, take_ge by lia. by destruct m.
  - destruct (lookup_lt_is_Some_2 (cache_kvs m) k) as [kv Hkv]; [lia|].
    rewrite (getitem_nat _ _ _ Hkv).
    spec_step ltac:(apply spec_of_result); [done|].
    simpl in *. simplify_eq. spec_step ltac:(apply spec_tuple_to); [done|].
    simpl in *. subst.
    eapply spec_conseq; [apply IH | done |].
    { simpl. rewrite length_insert. lia. }
    intros [m'|e]; simpl; [|done]. intros ->. f_equal.
    assert (k < length (cache_kvs m))%nat as Hk by lia.
    rewrite (take_S_r _ _ (map (moved device) kv))
      by (by apply list_lookup_insert_eq).
    rewrite take_insert_ge, drop_insert_lt by lia.
    rewrite (drop_S _ _ _ Hkv). simpl. by rewrite <- app_assoc.
Qed.

(** ** Sorting the shard names *)

Lemma sorted_Permutation (names : list string) : sorted names ≡ₚ names.
Proof. apply merge_sort_Permutation. Qed.

Lemma sorted_Sorted (names : list string) : Sorted String.le (sorted names).
Proof. apply (Sorted_merge_sort _). Qed.

Lemma length_sorted (names : list string) :
  length (sorted names) = length names.
Proof. apply Permutation_length, sorted_Permutation. Qed.


Lemma truthy_true (s : string) : truthy s = true <-> s <> "".
Proof. by destruct s. Qed.

(** ** The generation calls *)

Lemma spec_generate g ps n device temperature top_p :
  spec keeps_stdout (generate rt g ps n device temperature top_p)
       (fun _ => True).
Proof.
  unfold generate. emit_step; [done|].
  destruct (sample rt g ps n device temperature top_p) as [?|[[res lat] ptl]].
  - eapply spec_any. apply spec_raise.
  - spec_step ltac:(apply spec_ret); [done|]. simpl in *. simplify_eq.
    emit_step; [done|]. eapply spec_any. apply spec_ret.
Qed.

Lemma spec_print_results results :
  spec keeps_stdout (@print_results F results) (fun _ => True).
Proof.
  induction results as [|x results IH]; simpl.
  - eapply spec_any. apply spec_ret.
  - spec_step ltac:(by apply spec_print); [done|].
    spec_step ltac:(by apply spec_print); [done|]. done.
Qed.

Lemma spec_generate_call g temperature top_p :
  spec keeps_stdout
       (no_grad (do device <- xm_xla_device rt;
                 generate rt g prompts 256 device temperature top_p))
       (fun _ => True).
Proof.
  apply spec_no_grad. spec_step ltac:(apply spec_xm_xla_device); [done|].
  apply spec_generate.
Qed.

Lemma spec_timed_calls n temperature top_p g :
  spec keeps_stdout (timed_calls rt n temperature top_p g) (fun _ => True).
Proof.
  revert g. induction n as [|n IH]; intros g; simpl.
  - eapply spec_any. apply spec_ret.
  - spec_step ltac:(apply spec_generate_call); [done|]. destruct a.
    spec_step ltac:(apply spec_print_results); [done|]. apply IH.
Qed.

Lemma spec_main_report ckpt_dir max_batch_size n_times g :
  spec keeps_stdout (main_report rt ckpt_dir max_batch_size n_times g)
       (fun _ => True).
Proof.
  unfold main_report.
  do 3 (spec_step ltac:(by apply spec_print); [done|]).
  spec_step ltac:(apply spec_of_result); [done|].
  spec_step ltac:(by apply spec_print); [done|].
  spec_step ltac:(apply spec_of_result); [done|].
  eapply spec_any. by apply spec_print.
Qed.

Section Load.

Variables (ckpt_dir tokenizer_path : string) (rank world_size : Z)
          (max_seq_len max_batch_size : Z) (device : Device)
          (dim n_layers n_heads : Z) (quant : bool).

Local Abbreviation load_event :=
  (load_event rt ckpt_dir tokenizer_path rank world_size max_seq_len
              max_batch_size device dim n_layers n_heads quant).
Local Abbreviation load_exn := (load_exn rt ckpt_dir rank world_size).
Local Abbreviation shard_of := (shard_of rt ckpt_dir rank world_size).
Local Abbreviation load_value :=
  (load_value rt ckpt_dir tokenizer_path rank world_size max_seq_len
              max_batch_size device dim n_layers n_heads quant).
Local Abbreviation model_kwargs := (model_kwargs max_seq_len max_batch_size).

Lemma spec_load :
  spec load_event
       (load rt ckpt_dir tokenizer_path rank world_size max_seq_len
             max_batch_size device dim n_layers n_heads quant)
       (post load_value load_exn).
Proof.
  unfold load.
  spec_step ltac:(apply spec_time_time); [done|].
  spec_step ltac:(apply spec_print); [by left | done |].
  eapply (spec_bind _ _ _
            (post (fun cp => (truthy ckpt_dir = true ->
                              exists ckpt, cp.1 = Some ckpt /\ shard_of ckpt) /\
                             (truthy ckpt_dir = false ->
                              cp.2 = VDict (explicit_params dim n_layers
                                                            n_heads quant)))
                  load_exn)).
  - (* lines 57-73 *)
    destruct (truthy ckpt_dir) eqn:Hdir; [|by finish_ret].
    emit_step; [done|].
    call_step as listing.
    eapply (spec_bind _ _ _
              (post (fun _ => world_size = Z.of_nat (length (sorted listing)))
                    load_exn)).
    { case_bool_decide; [by finish_ret|]. finish_raise.
      split; [done|]. by exists listing. }
    { done. }
    intros [] Hws. simpl in Hws.
    spec_step ltac:(apply spec_of_result).
    { simpl in *. symmetry in H1.
      pose proof (getitem_Raise _ _ _ H1) as ->. simpl.
      split; [done|]. by exists listing. }
    simpl in *. emit_step; [split_and!; [done..|]; by exists listing|].
    call_step as ckpt. emit_step; [done|].
    call_step as text. call_step as manifest.
    finish_ret. split; [|done]. intros _. exists ckpt. split; [done|].
    by exists listing, a1.
  - done.
  - (* lines 75-94 *)
    intros [checkpoint manifest] [Hckpt Hmanifest]. simpl in *.
    eapply (spec_bind _ _ _
              (post (fun kw => truthy ckpt_dir = false ->
                               kw = list_to_map (explicit_params dim n_layers
                                                                 n_heads quant))
                    load_exn)).
    { destruct (truthy ckpt_dir) eqn:Hdir.
      - destruct manifest; try by finish_raise. finish_ret. by intros [=].
      - rewrite Hmanifest by done. by finish_ret. }
    { done. }
    intros kw Hkw. simpl in Hkw.
    eapply (spec_bind _ _ _
              (post (fun margs => ModelArgs_init rt (model_kwargs kw) = inr margs)
                    load_exn)).
    { unfold ModelArgs_call. case_bool_decide as Hdup.
      - finish_raise. destruct (truthy ckpt_dir) eqn:Hdir; [done|].
        rewrite Hkw in Hdup by done. vm_compute in Hdup.
        by destruct Hdup as [[? [=]]|[? [=]]].
      - fold (model_kwargs kw). destruct (ModelArgs_init rt (model_kwargs kw)).
        + by finish_raise.
        + by finish_ret. }
    { done. }
    intros margs Hmargs. simpl in Hmargs.
    emit_step; [done|].
    call_step as tok.
    eapply (spec_bind _ _ _ (fun r => r = Ok tt)).
    { destruct (USE_CUDA rt) eqn:Hcuda; apply spec_set_default_tensor_type;
        simpl; rewrite Hcuda; by left. }
    { done. }
    intros [] _.
    spec_step ltac:(apply spec_get_default_tensor_type).
    { by destruct H1. }
    rename a1 into default.
    emit_step; [by exists kw, margs, tok|].
    call_step as m0.
    eapply (spec_bind _ _ _
              (post (fun m1 =>
                       (truthy ckpt_dir = false -> m1 = m0) /\
                       (truthy ckpt_dir = true ->
                        exists ckpt,
                          shard_of ckpt /\ load_state_dict rt m0 ckpt = inr m1))
                    load_exn)).
    { destruct (truthy ckpt_dir) eqn:Hdir; [|by finish_ret].
      destruct Hckpt as (ckpt & -> & Hshard); [done|].
      emit_step; [done|].
      destruct (load_state_dict rt m0 ckpt) as [?|m1] eqn:Em1;
        [by finish_raise|].
      finish_ret. split; [done|]. intros _. by exists ckpt. }
    { done. }
    intros m1 [Hm1 Hm1']. simpl in Hm1, Hm1'.
    spec_step ltac:(eapply spec_conseq;
                    [apply spec_module_to | | intros r Hr; exact Hr]).
    { by intros []; simpl. }
    { by destruct H2 as [what ->]. }
    simpl in H2. subst a1.
    spec_step ltac:(eapply spec_conseq;
                    [by apply (spec_migrate_cache _ 0%nat) | |
                     intros r Hr; exact Hr]).
    { by intros []; simpl. }
    { by destruct H2 as [what ->]. }
    simpl in H2. rewrite drop_0 in H2. subst a1.
    spec_step ltac:(apply spec_set_default_tensor_type; by right); [done|].
    spec_step ltac:(apply spec_time_time); [done|].
    spec_step ltac:(apply spec_print); [right; by eexists | done |].
    finish_ret. split_and!; [done..|].
    exists kw, margs, tok, default, m0, m1. split_and!; try done.
    intros Hdir. split; [by apply Hkw | by apply Hm1].
Qed.

End Load.

(** ** Runs that return *)

Lemma record_nil st : record [] st = st.
Proof. destruct st. unfold record. simpl. by rewrite app_nil_r. Qed.

Lemma record_log e evs st : record evs (log e st) = record (e :: evs) st.
Proof. unfold record, log. simpl. by rewrite <- app_assoc. Qed.

Lemma record_record evs1 evs2 st :
  record evs2 (record evs1 st) = record (evs1 ++ evs2) st.
Proof. unfold record. simpl. by rewrite <- app_assoc. Qed.

Lemma bind_Ok {A B} (c : M F A) (k : A -> M F B) st b st' :
  bind c k st = (Ok b, st') ->
  exists a st1, c st = (Ok a, st1) /\ k a st1 = (Ok b, st').
Proof.
  unfold bind. destruct (c st) as [[a|e] st1]; [eauto | done].
Qed.

Lemma call_Ok {A} (x : ext A) st a st' :
  call x st = (Ok a, st') -> x = inr a /\ st' = st.
Proof. destruct x; [done|]. by intros [= <- <-]. Qed.

Lemma of_result_Ok {A} (x : result A) st a st' :
  @of_result F A x st = (Ok a, st') -> x = Ok a /\ st' = st.
Proof. destruct x; [|done]. by intros [= <- <-]. Qed.

Ltac ok_emit H := apply bind_Ok in H as ([] & ? & [= <-] & H).

Ltac ok_call H a Ha :=
  apply bind_Ok in H as (a & ? & Ha & H); apply call_Ok in Ha as [Ha ->].

Lemma tensor_to_Ok t device st t' st' :
  tensor_to rt t device st = (Ok t', st') ->
  t' = moved device t /\ st' = log (ETensorTo t device) st.
Proof.
  unfold tensor_to, bind, emit.
  destruct (transfer_error rt t device); [done|]. by intros [= <- <-].
Qed.

Lemma tuple_to_Ok ts device st ts' st' :
  tuple_to rt ts device st = (Ok ts', st') ->
  ts' = map (moved device) ts /\
  st' = record (map (fun t => ETensorTo t device) ts) st.
Proof.
  revert st ts' st'.
  induction ts as [|t ts IH]; intros st ts' st' Hrun; simpl in *.
  - injection Hrun as <- <-. by rewrite record_nil.
  - apply bind_Ok in Hrun as (t1 & st1 & Ht & Hrun).
    apply tensor_to_Ok in Ht as [-> ->].
    apply bind_Ok in Hrun as (rest & st2 & Hrest & Hrun).
    apply IH in Hrest as [-> ->]. injection Hrun as <- <-.
    by rewrite record_log.
Qed.

Lemma parameters_to_Ok ps device st ps' st' :
  parameters_to rt ps device st = (Ok ps', st') ->
  ps' = map (fun kt => (kt.1, moved device kt.2)) ps /\
  st' = record (map (fun kt => ETensorTo kt.2 device) ps) st.
Proof.
  revert st ps' st'.
  induction ps as [|[k t] ps IH]; intros st ps' st' Hrun; simpl in *.
  - injection Hrun as <- <-. by rewrite record_nil.
  - apply bind_Ok in Hrun as (t1 & st1 & Ht & Hrun).
    apply tensor_to_Ok in Ht as [-> ->].
    apply bind_Ok in Hrun as (rest & st2 & Hrest & Hrun).
    apply IH in Hrest as [-> ->]. injection Hrun as <- <-.
    by rewrite record_log.
Qed.

Lemma module_to_Ok m device st m' st' :
  module_to rt m device st = (Ok m', st') ->
  m' = mkTransformer (params m)
         (map (fun kt => (kt.1, moved device kt.2)) (parameters m))
         (cache_kvs m) /\
  st' = record (EModuleTo device ::
                map (fun kt => ETensorTo kt.2 device) (parameters m)) st.
Proof.
  unfold module_to. intros Hrun.
  apply bind_Ok in Hrun as ([] & st1 & [= <-] & Hrun).
  apply bind_Ok in Hrun as (ps & st2 & Hps & Hrun).
  apply parameters_to_Ok in Hps as [-> ->]. injection Hrun as <- <-.
  by rewrite record_log.
Qed.

Lemma migrate_cache_Ok n k m device st m' st' :
  (k + n)%nat = length (cache_kvs m) ->
  migrate_cache rt (seq k n) m device st = (Ok m', st') ->
  m' = mkTransformer (params m) (parameters m)
         (take k (cache_kvs m) ++
          map (map (moved device)) (drop k (cache_kvs m))) /\
  st' = record (map (fun t => ETensorTo t device)
                    (concat (drop k (cache_kvs m)))) st.
Proof.
  revert k m st m' st'.
  induction n as [|n IH]; intros k m st m' st' Hlen Hrun; simpl in *.
  - injection Hrun as <- <-.
    rewrite drop_ge, app_nil_r, take_ge by lia. simpl.
    rewrite record_nil. by destruct m.
  - destruct (lookup_lt_is_Some_2 (cache_kvs m) k) as [kv Hkv]; [lia|].
    rewrite (getitem_nat _ _ _ Hkv) in Hrun.
    apply bind_Ok in Hrun as (kv' & st1 & [= <- <-] & Hrun).
    apply bind_Ok in Hrun as (mv & st2 & Hmv & Hrun).
    apply tuple_to_Ok in Hmv as [-> ->].
    apply IH in Hrun as [-> ->]; [|simpl; rewrite length_insert; lia].
    simpl. assert (k < length (cache_kvs m))%nat as Hk by lia.
    rewrite (take_S_r _ _ (map (moved device) kv))
      by (by apply list_lookup_insert_eq).
    rewrite take_insert_ge, drop_insert_lt by lia.
    rewrite (drop_S _ _ _ Hkv). simpl.
    rewrite <- app_assoc, record_record, map_app. done.
Qed.

Lemma load_Ok ckpt_dir tokenizer_path rank world_size max_seq_len
    max_batch_size device dim n_layers n_heads quant st g st' :
  load rt ckpt_dir tokenizer_path rank world_size max_seq_len max_batch_size
       device dim n_layers n_heads quant st = (Ok g, st') ->
  exists kw margs tok m0 m1 shard,
    match shard with
    | None =>
        truthy ckpt_dir = false /\
        kw = list_to_map (explicit_params dim n_layers n_heads quant) /\
        m1 = m0
    | Some (name, ckpt) =>
        truthy ckpt_dir = true /\
        exists listing text items,
          glob rt ckpt_dir "*.pth" = inr listing /\
          world_size = Z.of_nat (length (sorted listing)) /\
          getitem (sorted listing) rank = Ok name /\
          torch_load rt ckpt_dir name = inr ckpt /\
          read_text rt ckpt_dir "params.json" = inr text /\
          json_loads rt text = inr (VDict items) /\
          kw = list_to_map items /\
          load_state_dict rt m0 ckpt = inr m1
    end /\
    let override := if USE_CUDA rt then CudaHalfTensor else BFloat16Tensor in
    let args := <["vocab_size" := VInt (n_words tok)]> margs in
    ModelArgs_init rt (model_kwargs max_seq_len max_batch_size kw)
      = inr margs /\
    Tokenizer_init rt tokenizer_path = inr tok /\
    Transformer_init rt args override = inr m0 /\
    g = mkLLaMA
          (mkTransformer (params m1)
             (map (fun kt => (kt.1, moved device kt.2)) (parameters m1))
             (map (map (moved device)) (cache_kvs m1)))
          tok [] [] /\
    st' = mkProc FloatTensor (stdout st) (grad_enabled st) (S (S (ticks st)))
            (trace st ++
             load_trace (stdout st) ckpt_dir tokenizer_path device
               (fst <$> shard) override args m1
               (fsub rt (clock rt (S (ticks st))) (clock rt (ticks st)))).
Proof.
  intros H. unfold load in H.
  apply bind_Ok in H as (start_time & st1 & [= <- <-] & H).
  apply bind_Ok in H as ([] & st2 & [= <-] & H).
  apply bind_Ok in H as ([checkpoint manifest] & st3 & Hfirst & H).
  apply bind_Ok in H as (kw & sa & Hkw & H).
  apply bind_Ok in H as (margs & sb & Hmargs & H).
  ok_emit H. ok_call H tok Htok.
  apply bind_Ok in H as ([] & sc & Hset & H).
  apply bind_Ok in H as (default & ? & [= <- <-] & H).
  ok_emit H. ok_call H m0 Hm0.
  apply bind_Ok in H as (m1 & sd & Hm1 & H).
  apply bind_Ok in H as (m2 & ? & Hm2 & H).
  apply module_to_Ok in Hm2 as [-> ->].
  apply bind_Ok in H as (m3 & ? & Hm3 & H).
  apply (migrate_cache_Ok _ 0%nat) in Hm3 as [-> ->]; [|done].
  apply bind_Ok in H as ([] & ? & [= <-] & H).
  apply bind_Ok in H as (end_time & ? & [= <- <-] & H).
  apply bind_Ok in H as ([] & ? & [= <-] & H).
  injection H as <- <-. simpl.
  assert (sc = record [ESetDefaultTensorType
                         (if USE_CUDA rt then CudaHalfTensor
                          else BFloat16Tensor)]
                 (mkProc (if USE_CUDA rt then CudaHalfTensor
                          else BFloat16Tensor)
                         (stdout sb) (grad_enabled sb) (ticks sb)
                         (trace sb ++ [ETokenizer tokenizer_path])))
    as ->.
  { by destruct (USE_CUDA rt); injection Hset as <-. }
  clear Hset. simpl in *.
  unfold ModelArgs_call in Hmargs. case_bool_decide; [done|].
  apply call_Ok in Hmargs as [Hmargs ->].
  destruct manifest as [| | | | | |items]; try done.
  injection Hkw as <- <-.
  exists (list_to_map items), margs, tok, m0, m1.
  destruct (truthy ckpt_dir) eqn:Hdir.
  - ok_emit Hfirst. ok_call Hfirst listing Hlisting.
    apply bind_Ok in Hfirst as ([] & ? & Hassert & Hfirst).
    case_bool_decide as Hws; [|done]. injection Hassert as <-.
    apply bind_Ok in Hfirst as (name & ? & Hname & Hfirst).
    apply of_result_Ok in Hname as [Hname ->].
    ok_emit Hfirst. ok_call Hfirst ckpt Hckpt.
    ok_emit Hfirst. ok_call Hfirst text Htext.
    ok_call Hfirst manifest Hmanifest.
    injection Hfirst as Hc Hi Hs. subst.
    ok_emit Hm1. apply call_Ok in Hm1 as [Hm1 ->].
    exists (Some (name, ckpt)). split_and!; try done.
    + by exists listing, text, items.
    + unfold load_trace, record, log. simpl. rewrite drop_0.
      f_equal. rewrite <- !app_assoc. simpl. by rewrite <- ?app_assoc.
  - injection Hm1 as <- <-. injection Hfirst as Hc Hi Hs. subst.
    exists None. split_and!; try done.
    unfold load_trace, record, log. simpl. rewrite drop_0.
    f_equal. rewrite <- !app_assoc. simpl. by rewrite <- ?app_assoc.
Qed.

(** The two failures of the shard selection, with the state they leave. *)
Lemma load_shard_count_mismatch ckpt_dir tokenizer_path rank world_size
    max_seq_len max_batch_size device dim n_layers n_heads quant listing st :
  truthy ckpt_dir = true ->
  glob rt ckpt_dir "*.pth" = inr listing ->
  world_size <> Z.of_nat (length (sorted listing)) ->
  load rt ckpt_dir tokenizer_path rank world_size max_seq_len max_batch_size
       device dim n_layers n_heads quant st
  = (Raise (AssertionError
              (shard_count_message (length (sorted listing)) world_size)),
     mkProc (default_tensor_type st) (stdout st) (grad_enabled st)
            (S (ticks st))
            (trace st ++ [EPrint (stdout st) (PStr "Loading");
                          EGlob ckpt_dir "*.pth"])).
Proof.
  intros Hdir Hglob Hws. unfold load, bind at 1. simpl.
  unfold bind at 1. simpl. rewrite Hdir. unfold bind at 1.
  unfold bind at 1. simpl. unfold bind at 1. rewrite Hglob. simpl.
  unfold bind at 1. rewrite bool_decide_eq_false_2 by done. simpl.
  unfold log. simpl. by rewrite <- app_assoc.
Qed.

Lemma load_shard_index_error ckpt_dir tokenizer_path rank world_size
    max_seq_len max_batch_size device dim n_layers n_heads quant listing st :
  truthy ckpt_dir = true ->
  glob rt ckpt_dir "*.pth" = inr listing ->
  world_size = Z.of_nat (length (sorted listing)) ->
  getitem (sorted listing) rank = Raise IndexError ->
  load rt ckpt_dir tokenizer_path rank world_size max_seq_len max_batch_size
       device dim n_layers n_heads quant st
  = (Raise IndexError,
     mkProc (default_tensor_type st) (stdout st) (grad_enabled st)
            (S (ticks st))
            (trace st ++ [EPrint (stdout st) (PStr "Loading");
                          EGlob ckpt_dir "*.pth"])).
Proof.
  intros Hdir Hglob Hws Hidx. unfold load, bind at 1. simpl.
  unfold bind at 1. simpl. rewrite Hdir. unfold bind at 1.
  unfold bind at 1. simpl. unfold bind at 1. rewrite Hglob. simpl.
  unfold bind at 1. rewrite bool_decide_eq_true_2 by done. simpl.
  unfold bind at 1. rewrite Hidx. simpl.
  unfold log. simpl. by rewrite <- app_assoc.
Qed.

Lemma xm_xla_device_Ok st device st' :
  xm_xla_device rt st = (Ok device, st') ->
  USE_XLA rt = true /\ xla_device rt = inr device /\ st' = st.
Proof.
  unfold xm_xla_device. destruct (USE_XLA rt); [|done].
  intros [? ?]%call_Ok. done.
Qed.

Lemma setup_model_parallel_Ok st rank world_size st' :
  setup_model_parallel rt st = (Ok (rank, world_size), st') ->
  get_model_parallel_rank rt = inr rank /\
  get_model_parallel_world_size rt = inr world_size /\
  USE_XLA rt = true /\
  exists device,
    xla_device rt = inr device /\
    st' = record [EManualSeed 1; ESetRngState 1 device] st.
Proof.
  unfold setup_model_parallel. intros H.
  ok_call H rank' Hrank. ok_call H ws' Hws. ok_emit H.
  apply bind_Ok in H as (device & ? & Hdev & H).
  apply xm_xla_device_Ok in Hdev as (Hxla & Hdev & ->).
  ok_emit H. injection H as <- <- <-. split_and!; try done.
  exists device. split; [done|].
  unfold record, log. simpl. by rewrite <- app_assoc.
Qed.

Lemma print_results_run results st :
  print_results results st =
  (Ok tt, record (printed_results (stdout st) results) st).
Proof.
  revert st. induction results as [|x results IH]; intros st; simpl.
  - by rewrite record_nil.
  - unfold bind at 1. simpl. unfold bind at 1. simpl. rewrite IH.
    unfold record, log. simpl. by rewrite <- !app_assoc.
Qed.

Lemma generate_call_Ok g temperature top_p st results g' st' :
  no_grad (do device <- xm_xla_device rt;
           generate rt g prompts 256 device temperature top_p) st
  = (Ok (results, g'), st') ->
  exists device latency per_token,
    USE_XLA rt = true /\
    xla_device rt = inr device /\
    sample rt g prompts 256 device temperature top_p
      = inr (results, latency, per_token) /\
    g' = mkLLaMA (model g) (tokenizer g) (latency_list g ++ [latency])
                 (per_token_latency_list g ++ [per_token]) /\
    st' = record [EGenerate prompts 256 device temperature top_p;
                  EGenerated results] st.
Proof.
  unfold no_grad. intros H.
  destruct (bind _ _ _) as [r st1] eqn:Hbody. injection H as -> <-.
  apply bind_Ok in Hbody as (device & ? & Hdev & H).
  apply xm_xla_device_Ok in Hdev as (Hxla & Hdev & ->).
  unfold generate in H. ok_emit H.
  apply bind_Ok in H as ([[res lat] ptl] & ? & Hsample & H).
  apply call_Ok in Hsample as [Hsample ->]. ok_emit H.
  injection H as <- <- <-. exists device, lat, ptl. split_and!; try done.
  unfold record, log. simpl. by rewrite <- !app_assoc.
Qed.

Lemma timed_calls_Ok n temperature top_p device g st g' st' :
  xla_device rt = inr device ->
  timed_calls rt n temperature top_p g st = (Ok g', st') ->
  exists batches latencies per_tokens,
    length batches = n /\
    length latencies = n /\
    length per_tokens = n /\
    g' = mkLLaMA (model g) (tokenizer g) (latency_list g ++ latencies)
                 (per_token_latency_list g ++ per_tokens) /\
    st' = record (timed_events (stdout st) device temperature top_p batches) st.
Proof.
  intros Hdev. revert g st.
  induction n as [|n IH]; intros g st H; simpl in H.
  - injection H as <- <-. exists [], [], []. split_and!; try done.
    + destruct g. simpl. by rewrite !app_nil_r.
    + by rewrite record_nil.
  - apply bind_Ok in H as ([results g1] & st1 & Hcall & H).
    apply generate_call_Ok in Hcall
      as (device' & lat & ptl & _ & Hdev' & _ & -> & ->).
    assert (device' = device) as -> by congruence.
    apply bind_Ok in H as ([] & st2 & Hprint & H).
    rewrite print_results_run in Hprint. injection Hprint as <-.
    apply IH in H as (batches & lats & ptls & Hb & Hl & Hp & -> & ->).
    exists (results :: batches), (lat :: lats), (ptl :: ptls).
    split_and!; simpl; try by f_equal.
    + by rewrite <- !app_assoc.
    + unfold record, timed_events. simpl. by rewrite <- !app_assoc.
Qed.

Lemma of_result_run {A} (x : result A) st :
  @of_result F A x st = (x, st).
Proof. by destruct x. Qed.

Lemma main_report_Ok ckpt_dir max_batch_size n_times g st st' :
  main_report rt ckpt_dir max_batch_size n_times g st = (Ok tt, st') ->
  exists mean mean_per_token,
    result_bind (py_sum rt (slice_from_1 (latency_list g)))
                (fun s => py_truediv rt s n_times) = Ok mean /\
    result_bind (py_sum rt (slice_from_1 (per_token_latency_list g)))
                (fun s => result_bind (py_truediv rt s n_times)
                                      (fun q => py_mul rt q 1000))
      = Ok mean_per_token /\
    st' = record (report_events rt (stdout st) ckpt_dir n_times max_batch_size
                                mean mean_per_token) st.
Proof.
  unfold main_report. intros H.
  apply bind_Ok in H as ([] & ? & [= <-] & H).
  apply bind_Ok in H as ([] & ? & [= <-] & H).
  apply bind_Ok in H as ([] & ? & [= <-] & H).
  apply bind_Ok in H as (mean & ? & Hmean & H).
  apply of_result_Ok in Hmean as [Hmean ->].
  apply bind_Ok in H as ([] & ? & [= <-] & H).
  apply bind_Ok in H as (mpt & ? & Hmpt & H).
  apply of_result_Ok in Hmpt as [Hmpt ->].
  injection H as <-. exists mean, mpt. split_and!; [done..|].
  unfold record, report_events, log. simpl. by rewrite <- !app_assoc.
Qed.

(** With no timed call the report stops at the first mean. *)
Lemma main_report_zero ckpt_dir max_batch_size g st latency :
  latency_list g = [latency] ->
  main_report rt ckpt_dir max_batch_size 0 g st
  = (Raise ZeroDivisionError,
     record [EPrint (stdout st) (PStr "XLA:GPU ENV INFO:");
             EPrint (stdout st)
               (PEnvInfo (USE_XLA rt) (USE_CUDA rt) (USE_TORCH_DYNAMO rt)
                         (GPU_NUM_DEVICES rt));
             EPrint (stdout st) (PRunInfo ckpt_dir 0 max_batch_size)] st).
Proof.
  intros Hg. unfold main_report. rewrite Hg.
  unfold bind at 1. simpl. unfold bind at 1. simpl. unfold bind at 1. simpl.
  unfold bind at 1. simpl. unfold record, log. simpl.
  by rewrite <- !app_assoc.
Qed.

Lemma main_report_needs_nonzero ckpt_dir max_batch_size n_times g st st' :
  main_report rt ckpt_dir max_batch_size n_times g st = (Ok tt, st') ->
  n_times <> 0.
Proof.
  intros (mean & _ & Hmean & _)%main_report_Ok ->.
  destruct (py_sum rt _); simpl in Hmean; [|done].
  by unfold py_truediv in Hmean.
Qed.



Lemma filter_generate_preparation (evs : list (Event F)) :
  Forall preparation_event evs -> List.filter is_generate evs = [].
Proof.
  induction 1 as [|e evs He _ IH]; [done|]. simpl. by destruct e.
Qed.

Lemma load_event_preparation ckpt_dir tokenizer_path rank world_size
    max_seq_len max_batch_size device dim n_layers n_heads quant e :
  load_event rt ckpt_dir tokenizer_path rank world_size max_seq_len
             max_batch_size device dim n_layers n_heads quant e ->
  preparation_event e.
Proof. by destruct e. Qed.

Lemma load_event_keeps_stdout ckpt_dir tokenizer_path rank world_size
    max_seq_len max_batch_size device dim n_layers n_heads quant e :
  load_event rt ckpt_dir tokenizer_path rank world_size max_seq_len
             max_batch_size device dim n_layers n_heads quant e ->
  keeps_stdout e.
Proof. by destruct e. Qed.

Lemma map_fmap {A B} (f : A -> B) (l : list A) : map f l = f <$> l.
Proof. by induction l; simpl; f_equal. Qed.

Lemma main_generation_Ok tokenizer_path temperature top_p max_seq_len
    max_batch_size ckpt_dir dim n_layers n_heads quant n_times st g st' :
  main_generation rt tokenizer_path temperature top_p max_seq_len
    max_batch_size ckpt_dir dim n_layers n_heads quant n_times st
  = (Ok g, st') ->
  exists rank world_size device st0 g0 st1 warmup latency per_token
         batches latencies per_tokens,
    setup_model_parallel rt st
      = (Ok (rank, world_size),
         record [EManualSeed 1; ESetRngState 1 device] st) /\
    xla_device rt = inr device /\
    trace st0 = trace st ++ [EManualSeed 1; ESetRngState 1 device] ++
                (if 0 <? rank then [EOpenDevNull] else []) /\
    stdout st0 = (if 0 <? rank then DevNull else stdout st) /\
    load rt ckpt_dir tokenizer_path rank world_size max_seq_len max_batch_size
         device dim n_layers n_heads quant st0 = (Ok g0, st1) /\
    length batches = range_len n_times /\
    length latencies = range_len n_times /\
    length per_tokens = range_len n_times /\
    g = mkLLaMA (model g0) (tokenizer g0)
                (latency_list g0 ++ latency :: latencies)
                (per_token_latency_list g0 ++ per_token :: per_tokens) /\
    st' = record ([EGenerate prompts 256 device temperature top_p;
                   EGenerated warmup] ++
                  timed_events (stdout st1) device temperature top_p batches)
                 st1.
Proof.
  unfold main_generation. intros H.
  apply bind_Ok in H as ([rank world_size] & sa & Hsetup & H).
  pose proof Hsetup as Hsetup'.
  apply setup_model_parallel_Ok in Hsetup'
    as (_ & _ & _ & device & Hdev & ->).
  apply bind_Ok in H as ([] & st0 & Hredirect & H).
  apply bind_Ok in H as (device' & ? & Hdev' & H).
  apply xm_xla_device_Ok in Hdev' as (_ & Hdev' & ->).
  assert (device' = device) as -> by congruence.
  apply bind_Ok in H as (g0 & st1 & Hload & H).
  apply bind_Ok in H as ([warmup g1] & st2 & Hwarm & H).
  apply generate_call_Ok in Hwarm
    as (device' & lat & ptl & _ & Hdev2 & _ & -> & ->).
  assert (device' = device) as -> by congruence.
  apply (timed_calls_Ok _ _ _ device) in H
    as (batches & lats & ptls & Hb & Hl & Hp & -> & ->); [|done].
  exists rank, world_size, device, st0, g0, st1, warmup, lat, ptl,
         batches, lats, ptls.
  split_and!; try done.
  - destruct (0 <? rank); injection Hredirect as <-; simpl;
      by rewrite ?app_nil_r, <- ?app_assoc.
  - by destruct (0 <? rank); injection Hredirect as <-.
  - simpl. by rewrite <- !app_assoc.
  - by rewrite record_record.
Qed.

(** ** The calls and the record they leave *)





End DriverLemmas.

(** * The properties of the specification *)

Section LoadClaims.

Context {F : Type} (rt : Runtime F).

Variables (ckpt_dir tokenizer_path : string) (rank world_size : Z)
          (max_seq_len max_batch_size : Z) (device : Device)
          (dim n_layers n_heads : Z) (quant : bool).

Local Abbreviation load_here :=
  (load rt ckpt_dir tokenizer_path rank world_size max_seq_len max_batch_size
        device dim n_layers n_heads quant).

Lemma getitem_out_of_range {A} (l : list A) (i : Z) :
  Z.of_nat (length l) <= i -> getitem l i = Raise IndexError.
Proof.
  intros Hi. unfold getitem.
  destruct (Z.ltb_spec i 0) as [?|_]; [lia|].
  destruct (Z.ltb_spec i 0) as [?|_]; [lia|].
  rewrite lookup_ge_None_2; [done | lia].
Qed.

(** C2. With [k] shard files in the checkpoint directory, a [world_size]
    other than [k] makes [load] fail with the assertion whose message
    names both counts, having printed "Loading" and listed the directory
    and nothing else: no file read, no model built, no tensor moved; with
    [world_size = k] the assertion never fails. *)
Theorem load_checks_shard_count (listing : list string) (st : Proc F) :
  ckpt_dir <> "" ->
  glob rt ckpt_dir "*.pth" = inr listing ->
  (world_size <> Z.of_nat (length listing) ->
   load_here st
   = (Raise (AssertionError
               ("Loading a checkpoint for MP=" +:+ pretty (length listing) +:+
                " but world size is " +:+ pretty world_size)),
      mkProc (default_tensor_type st) (stdout st) (grad_enabled st)
             (S (ticks st))
             (trace st ++ [EPrint (stdout st) (PStr "Loading");
                           EGlob ckpt_dir "*.pth"]))) /\
  (world_size = Z.of_nat (length listing) ->
   forall msg, (load_here st).1 <> Raise (AssertionError msg)).
Proof.
  intros Hdir%truthy_true Hglob. split.
  - intros Hws. rewrite <- (length_sorted listing) in *.
    by apply load_shard_count_mismatch.
  - intros Hws msg Hfail.
    destruct (load_here st) as [r st'] eqn:Hrun. simpl in Hfail. subst r.
    destruct (spec_load _ _ _ _ _ _ _ _ _ _ _ _ _ _ _ Hrun) as [_ Hexn].
    destruct Hexn as (_ & listing' & Hglob' & Hne & _).
    rewrite Hglob in Hglob'. injection Hglob' as <-.
    by rewrite length_sorted in Hne.
Qed.


(** C10. Without a checkpoint directory [load] does not look at [rank] or
    [world_size]: its outcome is the same for all of them, it lists no
    directory and it can only fail inside a collaborator, never on the
    shard-count assertion or on indexing.  With a checkpoint directory
    whose shard count equals [world_size], a rank of [world_size] or more
    is rejected by the indexing of the shard list. *)
Theorem load_without_checkpoint_ignores_topology :
  (forall rank1 world_size1 rank2 world_size2 (st : Proc F),
     load rt "" tokenizer_path rank1 world_size1 max_seq_len max_batch_size
          device dim n_layers n_heads quant st
     = load rt "" tokenizer_path rank2 world_size2 max_seq_len max_batch_size
            device dim n_layers n_heads quant st) /\
  (forall (st : Proc F) r st',
     load rt "" tokenizer_path rank world_size max_seq_len max_batch_size
          device dim n_layers n_heads quant st = (r, st') ->
     (forall e, r = Raise e -> exists what, e = External what) /\
     exists evs,
       trace st' = trace st ++ evs /\
       Forall (fun e => forall d p, e <> EGlob d p) evs) /\
  (forall listing (st : Proc F),
     ckpt_dir <> "" ->
     glob rt ckpt_dir "*.pth" = inr listing ->
     world_size = Z.of_nat (length listing) ->
     world_size <= rank ->
     (load_here st).1 = Raise IndexError).
Proof.
  split_and!.
  - done.
  - intros st r st' Hrun.
    destruct (spec_load _ _ _ _ _ _ _ _ _ _ _ _ _ _ _ Hrun)
      as [(evs & Htrace & Hevs & _) Hpost].
    split.
    + intros e ->. simpl in Hpost.
      destruct e; simpl in Hpost; try done; try by destruct Hpost.
      by eexists.
    + exists evs. split; [done|]. eapply Forall_impl; [exact Hevs|].
      intros [] He d p; try done. simpl in He. by destruct He.
  - intros listing st Hdir%truthy_true Hglob Hws Hrank.
    erewrite load_shard_index_error; eauto.
    + by rewrite length_sorted.
    + apply getitem_out_of_range. rewrite length_sorted. lia.
Qed.

(** C1, as the code has it.  A call of [load] that returns leaves the
    full-precision default [torch.FloatTensor] in force, which is the
    precision the caller had if the call was entered under that default;
    a call that fails on the shard-count assertion or on the indexing of
    the shard list, or more generally before any
    [torch.set_default_tensor_type] call, leaves the precision as it was. *)
Theorem load_default_precision (st : Proc F) r st' :
  load_here st = (r, st') ->
  (forall g, r = Ok g -> default_tensor_type st' = FloatTensor) /\
  (forall g,
     r = Ok g -> default_tensor_type st = FloatTensor ->
     default_tensor_type st' = default_tensor_type st) /\
  (forall e,
     r = Raise e -> (e = IndexError \/ exists msg, e = AssertionError msg) ->
     default_tensor_type st' = default_tensor_type st) /\
  (forall evs,
     trace st' = trace st ++ evs ->
     Forall (fun e => forall t, e <> ESetDefaultTensorType t) evs ->
     default_tensor_type st' = default_tensor_type st).
Proof.
  intros Hrun.
  assert (forall g, r = Ok g -> default_tensor_type st' = FloatTensor) as Hok.
  { intros g ->.
    apply load_Ok in Hrun
      as (kw & margs & tok & m0 & m1 & shard & _ & _ & _ & _ & _ & ->).
    done. }
  destruct (spec_load _ _ _ _ _ _ _ _ _ _ _ _ _ _ _ Hrun)
    as [(evs & Htrace & _ & Hdefault & _) Hpost].
  split_and!.
  - done.
  - intros g Hg ->. eauto.
  - intros e -> [->|[msg ->]]; simpl in Hpost.
    + destruct Hpost as (Hdir & listing & Hglob & Hws & Hidx).
      rewrite (load_shard_index_error _ _ _ _ _ _ _ _ _ _ _ _ listing)
        in Hrun by done.
      by injection Hrun as <-.
    + destruct Hpost as (Hdir & listing & Hglob & Hws & _).
      rewrite (load_shard_count_mismatch _ _ _ _ _ _ _ _ _ _ _ _ listing)
        in Hrun by done.
      by inversion Hrun.
  - intros evs' Htrace' Hunset. rewrite Htrace in Htrace'.
    apply app_inv_head in Htrace' as ->.
    by rewrite Hdefault, replay_default_unset.
Qed.


(** C8. When [load] returns, the module was moved to the device and its
    parameters live there; the cache list has kept its length, the tuple
    at every index is the tuple that was there with each tensor replaced
    by its copy on the device, each obtained by a transfer of its own, and
    no cache tensor is anywhere else.  The model [m] this is said of is
    the one [load] built: what [Transformer] constructed, under the
    override and from the hyperparameters recorded in the trace, with the
    weights of the shard applied to it when there is a checkpoint
    directory. *)
Theorem load_places_model_and_caches (st : Proc F) g st' :
  load_here st = (Ok g, st') ->
  exists (m : Transformer F) evs,
    trace st' = trace st ++ evs /\
    EModuleTo device ∈ evs /\
    parameters (model g)
      = map (fun kt => (kt.1, moved device kt.2)) (parameters m) /\
    Forall (fun kt => tdevice kt.2 = device) (parameters (model g)) /\
    length (cache_kvs (model g)) = length (cache_kvs m) /\
    (forall i kv,
       cache_kvs m !! i = Some kv ->
       cache_kvs (model g) !! i = Some (map (moved device) kv) /\
       Forall (fun t => ETensorTo t device ∈ evs) kv) /\
    Forall (Forall (fun t => tdevice t = device)) (cache_kvs (model g)) /\
    params (model g) = params m /\
    cache_kvs (model g) = map (map (moved device)) (cache_kvs m) /\
    exists args m0,
      ETransformer args (if USE_CUDA rt then CudaHalfTensor
                         else BFloat16Tensor) ∈ evs /\
      Transformer_init rt args (if USE_CUDA rt then CudaHalfTensor
                                else BFloat16Tensor) = inr m0 /\
      (ckpt_dir = "" -> m = m0) /\
      (ckpt_dir <> "" ->
       exists listing name ckpt,
         glob rt ckpt_dir "*.pth" = inr listing /\
         getitem (sorted listing) rank = Ok name /\
         torch_load rt ckpt_dir name = inr ckpt /\
         load_state_dict rt m0 ckpt = inr m).
Proof.
  intros Hrun.
  apply load_Ok in Hrun
    as (kw & margs & tok & m0 & m1 & shard & Hshard & _ & _ & Hm0 & -> & ->).
  eexists m1, _. split; [reflexivity|]. simpl. split_and!.
  - unfold load_trace. rewrite !elem_of_app. do 4 right.
    apply list_elem_of_here.
  - done.
  - apply Forall_map, Forall_forall. by intros [k t].
  - by rewrite length_map.
  - intros i kv Hkv. split.
    + by rewrite map_fmap, list_lookup_fmap, Hkv.
    + apply Forall_forall. intros t Ht.
      unfold load_trace. rewrite !elem_of_app. do 4 right.
      apply list_elem_of_further. rewrite elem_of_app. right.
      rewrite elem_of_app. left. rewrite map_fmap.
      apply list_elem_of_fmap. exists t. split; [done|].
      apply list_elem_of_In, in_concat. exists kv.
      split; apply list_elem_of_In; [|done].
      by eapply list_elem_of_lookup_2.
  - apply Forall_map, Forall_forall. intros kv _.
    apply Forall_map, Forall_forall. by intros t _.
  - done.
  - done.
  - eexists _, m0. split_and!; [|exact Hm0|..].
    + unfold load_trace. rewrite !elem_of_app. right. right. left.
      do 2 apply list_elem_of_further. apply list_elem_of_here.
    + intros ->. destruct shard as [[name ckpt]|]; [by destruct Hshard|].
      by destruct Hshard as (_ & _ & ->).
    + intros Hdir%truthy_true. destruct shard as [[name ckpt]|].
      * destruct Hshard
          as (_ & listing & text & items & Hglob & _ & Hname & Hckpt & _ &
              _ & _ & Hm1).
        by exists listing, name, ckpt.
      * destruct Hshard as [Hfalse _]. congruence.
Qed.

End LoadClaims.

Section MainClaims.

Context {F : Type} (rt : Runtime F).

Variables (tokenizer_path : string) (temperature top_p : F)
          (max_seq_len max_batch_size : Z) (ckpt_dir : string)
          (dim n_layers n_heads : Z) (quant : bool).

Local Abbreviation main_here :=
  (main rt tokenizer_path temperature top_p max_seq_len max_batch_size
        ckpt_dir dim n_layers n_heads quant).

Local Abbreviation main_generation_here :=
  (main_generation rt tokenizer_path temperature top_p max_seq_len
                   max_batch_size ckpt_dir dim n_layers n_heads quant).

Lemma main_after_generation n_times st g st1 :
  main_generation_here n_times st = (Ok g, st1) ->
  main_here n_times st = main_report rt ckpt_dir max_batch_size n_times g st1.
Proof. intros Hgen. unfold main, bind. by rewrite Hgen. Qed.


Lemma warmup_is_the_only_call_when_zero (st : Proc F) g st1 :
  main_generation_here 0 st = (Ok g, st1) ->
  exists device,
    List.filter is_generate (drop (length (trace st)) (trace st1))
    = [EGenerate prompts 256 device temperature top_p] /\
    exists latency, latency_list g = [latency].
Proof.
  intros Hgen.
  apply main_generation_Ok in Hgen
    as (rank & world_size & device & st0 & g0 & sl & warmup & lat & ptl &
        batches & lats & ptls & _ & _ & Hst0 & _ & Hload & Hb & Hl & Hp &
        -> & ->).
  destruct (spec_load _ _ _ _ _ _ _ _ _ _ _ _ _ _ _ Hload)
    as [(evs & Htrace & Hevs & _) (Hlat & Hptl & _)].
  destruct batches; [|done]. destruct lats; [|done].
  exists device. split; [|exists lat; simpl; by rewrite Hlat].
  simpl. rewrite Htrace, Hst0, <- !app_assoc, drop_app_length.
  rewrite !List.filter_app. simpl.
  rewrite (filter_generate_preparation evs).
  - by destruct (0 <? rank).
  - eapply Forall_impl; [exact Hevs|]. apply load_event_preparation.
Qed.

(** C9, as the code has it.  With [n_times = 0] a run that gets through
    loading and the warm-up makes that one generation call and no timed
    one, prints the three heading lines of the report and fails with
    [ZeroDivisionError] on the first mean; a run of [main] that returns
    has [n_times] other than zero. *)
Theorem main_zero_iterations :
  (forall (st : Proc F) g st1,
     main_generation_here 0 st = (Ok g, st1) ->
     (exists device,
        List.filter is_generate (drop (length (trace st)) (trace st1))
        = [EGenerate prompts 256 device temperature top_p]) /\
     main_here 0 st
     = (Raise ZeroDivisionError,
        record [EPrint (stdout st1) (PStr "XLA:GPU ENV INFO:");
                EPrint (stdout st1)
                  (PEnvInfo (USE_XLA rt) (USE_CUDA rt) (USE_TORCH_DYNAMO rt)
                            (GPU_NUM_DEVICES rt));
                EPrint (stdout st1) (PRunInfo ckpt_dir 0 max_batch_size)]
               st1)) /\
  (forall n_times (st : Proc F) st',
     main_here n_times st = (Ok tt, st') -> n_times <> 0).
Proof.
  split.
  - intros st g st1 Hgen.
    destruct (warmup_is_the_only_call_when_zero st g st1 Hgen)
      as (device & Hcalls & latency & Hlat).
    split; [by exists device|].
    rewrite (main_after_generation _ _ _ _ Hgen).
    by apply (main_report_zero _ _ _ _ _ latency).
  - intros n_times st st' Hrun. unfold main in Hrun.
    apply bind_Ok in Hrun as (g & st1 & _ & Hreport).
    by eapply main_report_needs_nonzero.
Qed.

(** What [main] does once the topology is known (lines 111-167) only
    adds events that leave [sys.stdout] bound as it is, apart from the
    redirection itself. *)
Lemma run_after_redirection n_times rank world_size (st0 : Proc F) r st' :
  bind (do device <- xm_xla_device rt;
        do generator <- load rt ckpt_dir tokenizer_path rank world_size
                             max_seq_len max_batch_size device dim n_layers
                             n_heads quant;
        do ' (results, generator) <-
          no_grad (do device <- xm_xla_device rt;
                   generate rt generator prompts 256 device temperature top_p);
        timed_calls rt (range_len n_times) temperature top_p generator)
       (main_report rt ckpt_dir max_batch_size n_times) st0 = (r, st') ->
  run keeps_stdout st0 st'.
Proof.
  intros Hrun. eapply (spec_bind keeps_stdout _ _ (fun _ => True)
                                 (fun _ => True)); [| | |exact Hrun].
  - eapply spec_bind; [apply spec_xm_xla_device | done |]. intros device _.
    eapply spec_bind;
      [eapply spec_any, spec_conseq;
       [apply spec_load | apply load_event_keeps_stdout | done]
      | done |].
    intros g _.
    eapply spec_bind; [apply spec_generate_call | done |].
    intros [results g'] _. apply spec_timed_calls.
  - done.
  - intros g _. apply spec_main_report.
Qed.

Lemma main_from_setup n_times rank world_size (st st0 : Proc F) :
  setup_model_parallel rt st = (Ok (rank, world_size), st0) ->
  main_here n_times st
  = bind (do device <- xm_xla_device rt;
          do generator <- load rt ckpt_dir tokenizer_path rank world_size
                               max_seq_len max_batch_size device dim n_layers
                               n_heads quant;
          do ' (results, generator) <-
            no_grad (do device <- xm_xla_device rt;
                     generate rt generator prompts 256 device temperature
                              top_p);
          timed_calls rt (range_len n_times) temperature top_p generator)
         (main_report rt ckpt_dir max_batch_size n_times)
         (if 0 <? rank
          then mkProc (default_tensor_type st0) DevNull (grad_enabled st0)
                      (ticks st0) (trace st0 ++ [EOpenDevNull])
          else st0).
Proof.
  intros Hsetup. unfold main, main_generation.
  unfold bind at 1 2. rewrite Hsetup. unfold bind at 2.
  by destruct (0 <? rank).
Qed.

(** C7. Once [setup_model_parallel] has given a process its rank, a rank
    above 0 rebinds [sys.stdout] to the null device as the next thing it
    does, before [load] is called; nothing rebinds it afterwards, whatever
    way the run ends, so everything that process prints goes to the null
    device.  A process of rank 0 keeps the stream it had and prints there. *)
Theorem main_silences_nonzero_ranks n_times (st : Proc F) rank world_size
    st0 r st' :
  setup_model_parallel rt st = (Ok (rank, world_size), st0) ->
  main_here n_times st = (r, st') ->
  exists evs,
    Forall keeps_stdout evs /\
    (0 < rank ->
     trace st' = trace st0 ++ EOpenDevNull :: evs /\
     stdout st' = DevNull /\
     Forall (fun e => forall s w, e = EPrint s w -> s = DevNull) evs) /\
    (rank <= 0 ->
     trace st' = trace st0 ++ evs /\
     stdout st' = stdout st /\
     Forall (fun e => forall s w, e = EPrint s w -> s = stdout st) evs).
Proof.
  intros Hsetup Hmain.
  assert (stdout st0 = stdout st) as Hstdout.
  { apply setup_model_parallel_Ok in Hsetup
      as (_ & _ & _ & device & _ & ->). done. }
  rewrite (main_from_setup _ _ _ _ _ Hsetup) in Hmain.
  destruct (Z.ltb_spec 0 rank) as [Hrank|Hrank].
  - apply run_after_redirection in Hmain
      as (evs & Htrace & Hevs & _ & Hs & Hcoherent & _).
    simpl in *. exists evs. split; [done|]. split; [|lia]. intros _.
    split_and!.
    + by rewrite Htrace, <- app_assoc.
    + by rewrite Hs, replay_stdout_DevNull.
    + apply coherent_prints; [done | by right].
  - apply run_after_redirection in Hmain
      as (evs & Htrace & Hevs & _ & Hs & Hcoherent & _).
    simpl in *. exists evs. split; [done|]. split; [lia|]. intros _.
    split_and!.
    + done.
    + by rewrite Hs, replay_stdout_unopened.
    + rewrite <- Hstdout. apply coherent_prints; [done | by left].
Qed.

End MainClaims.

Section LauncherClaims.

Context {F : Type}.

(** C5. With the multi-process flag set and the XLA runtime selected,
    [mp_main] starts one process per visible device and runs nothing in
    the calling process; the child of index [idx] runs [_fn], which is
    [main] on exactly the arguments of the launcher whatever the index.
    Otherwise it starts no process and runs [main] once, on the same
    arguments, in the calling process. *)
Theorem mp_main_dispatch (ds : Devices) (rt : Runtime F) (mp : bool)
    (tokenizer_path : string) (temperature top_p : F)
    (max_seq_len max_batch_size : Z) (ckpt_dir : string)
    (dim n_layers n_heads : Z) (quant : bool) (n_times : Z) (st : Proc F) :
  let launch :=
    mp_main ds rt mp tokenizer_path temperature top_p max_seq_len
            max_batch_size ckpt_dir dim n_layers n_heads quant n_times st in
  (mp && USE_XLA rt = true ->
   length (children launch) = visible ds /\
   (forall idx,
      (idx < visible ds)%nat ->
      children launch !! idx
      = Some (main (child_runtime ds idx) tokenizer_path temperature top_p
                   max_seq_len max_batch_size ckpt_dir dim n_layers n_heads
                   quant n_times (child_proc ds idx))) /\
   (parent launch).2 = st) /\
  (mp && USE_XLA rt = false ->
   children launch = [] /\
   parent launch
   = main rt tokenizer_path temperature top_p max_seq_len max_batch_size
          ckpt_dir dim n_layers n_heads quant n_times st) /\
  (forall rt' idx idx',
     _fn rt' idx tokenizer_path temperature top_p max_seq_len max_batch_size
         ckpt_dir dim n_layers n_heads quant n_times
     = _fn rt' idx' tokenizer_path temperature top_p max_seq_len
           max_batch_size ckpt_dir dim n_layers n_heads quant n_times /\
     _fn rt' idx tokenizer_path temperature top_p max_seq_len max_batch_size
         ckpt_dir dim n_layers n_heads quant n_times
     = main rt' tokenizer_path temperature top_p max_seq_len max_batch_size
            ckpt_dir dim n_layers n_heads quant n_times).
Proof.
  intros launch. subst launch. unfold mp_main. split_and!.
  - intros ->. unfold xmp_spawn. simpl. split_and!.
    + by rewrite length_map, length_seq.
    + intros idx Hidx. rewrite map_fmap, list_lookup_fmap.
      by rewrite lookup_seq_lt.
    + done.
  - by intros ->.
  - done.
Qed.

End LauncherClaims.

(** * The properties on a concrete world *)

Section OnDemo.

Import Demo.

Lemma load_checks_shard_count_witness :
  (load (runtime true 0 4 shards true) "ckpt" "tokenizer.model" 0 4 512 32
        (xla 0) 4096 32 32 false proc0).1
  = Raise (AssertionError "Loading a checkpoint for MP=2 but world size is 4").
Proof.
  rewrite (proj1 (load_checks_shard_count (runtime true 0 4 shards true)
                    "ckpt" "tokenizer.model" 0 4 512 32 (xla 0) 4096 32 32
                    false shards proc0 ltac:(discriminate) eq_refl)).
  - reflexivity.
  - simpl. lia.
Defined.


Lemma load_without_checkpoint_ignores_topology_witness :
  (load (runtime true 2 2 shards true) "ckpt" "tokenizer.model" 2 2 512 32
        (xla 0) 4096 32 32 false proc0).1
  = Raise IndexError.
Proof.
  apply (proj2 (proj2 (load_without_checkpoint_ignores_topology
                         (runtime true 2 2 shards true) "ckpt"
                         "tokenizer.model" 2 2 512 32 (xla 0) 4096 32 32
                         false)) shards proc0).
  - discriminate.
  - reflexivity.
  - reflexivity.
  - lia.
Defined.

Lemma load_default_precision_witness :
  default_tensor_type loaded.2 = FloatTensor.
Proof.
  destruct loaded as [[g|e] st'] eqn:Hrun;
    [|vm_compute in Hrun; discriminate Hrun].
  unfold loaded in Hrun.
  exact (proj1 (load_default_precision _ _ _ _ _ _ _ _ _ _ _ _ _ _ _ Hrun)
               g eq_refl).
Defined.

(** C1 as stated fails: a model constructor that raises leaves bfloat16 as
    the default of a process that had full precision; and a call that
    returns leaves full precision to a process that had another default. *)
Lemma load_failure_leaks_override :
  (load_failed.1 = Raise (External "RuntimeError") /\
   default_tensor_type proc0 = FloatTensor /\
   default_tensor_type load_failed.2 = BFloat16Tensor /\
   default_tensor_type load_failed.2 <> default_tensor_type proc0) /\
  (default_tensor_type loaded_from_double.2 = FloatTensor /\
   default_tensor_type loaded_from_double.2 <> DoubleTensor).
Proof. vm_compute. by split_and!. Qed.


Lemma load_places_model_and_caches_witness :
  exists g st',
    loaded = (Ok g, st') /\
    Forall (Forall (fun t => tdevice t = xla 1)) (cache_kvs (model g)).
Proof.
  destruct loaded as [[g|e] st'] eqn:Hrun;
    [|vm_compute in Hrun; discriminate Hrun].
  exists g, st'. split; [reflexivity|]. unfold loaded in Hrun.
  destruct (load_places_model_and_caches _ _ _ _ _ _ _ _ _ _ _ _ _ _ _ Hrun)
    as (m & evs & _ & _ & _ & _ & _ & _ & Hcaches & _).
  exact Hcaches.
Defined.


Lemma main_zero_iterations_witness :
  (run_main 0 0).1 = Raise ZeroDivisionError.
Proof.
  destruct (run_main_generation 0) as [[g|e] st1] eqn:Hrun;
    [|vm_compute in Hrun; discriminate Hrun].
  unfold run_main_generation in Hrun. unfold run_main.
  rewrite (proj2 (proj1 (main_zero_iterations _ _ _ _ _ _ _ _ _ _ _)
                        _ _ _ Hrun)).
  reflexivity.
Defined.

(** C9 as stated fails: with a negative [n_times] no timed call is made,
    the division is by a non-zero number and the run returns. *)
Lemma main_negative_iterations_returns :
  (run_main 0 (-1)).1 = Ok tt /\
  length (List.filter is_generate (trace (run_main 0 (-1)).2)) = 1%nat /\
  ~ 0 < -1.
Proof. vm_compute. split_and!; [done..|]. by intros [=]. Qed.

Lemma main_silences_nonzero_ranks_witness :
  stdout (run_main 1 3).2 = DevNull.
Proof.
  destruct (run_main 1 3) as [r st'] eqn:Hrun. unfold run_main in Hrun.
  assert (setup_model_parallel (runtime true 1 2 shards true) proc0
          = (Ok (1, 2), record [EManualSeed 1; ESetRngState 1 (xla 1)] proc0))
    as Hsetup by reflexivity.
  destruct (main_silences_nonzero_ranks _ _ _ _ _ _ _ _ _ _ _ _ _ _ _ _ _ _
              Hsetup Hrun)
    as (evs & _ & Hsilent & _).
  exact (proj1 (proj2 (Hsilent ltac:(lia)))).
Defined.

Lemma mp_main_dispatch_witness :
  length (children launched) = 2%nat.
Proof.
  exact (proj1 (proj1 (mp_main_dispatch devices (runtime true 0 2 shards true)
                         true "tokenizer.model" temperature top_p 512 32
                         "" 4096 32 32 false 3 proc0) eq_refl)).
Defined.

End OnDemo.

(** * Further properties of the driver *)

Section MoreOnSetup.

Context {F : Type} (rt : Runtime F).

Lemma main_unbound_xm tokenizer_path (temperature top_p : F) max_seq_len
    max_batch_size ckpt_dir dim n_layers n_heads quant n_times
    (st : Proc F) rank world_size :
  USE_XLA rt = false ->
  get_model_parallel_rank rt = inr rank ->
  get_model_parallel_world_size rt = inr world_size ->
  main rt tokenizer_path temperature top_p max_seq_len max_batch_size
       ckpt_dir dim n_layers n_heads quant n_times st
  = (Raise (NameError "xm"), log (EManualSeed 1) st).
Proof.
  intros Hxla Hrank Hws.
  unfold main, main_generation, setup_model_parallel, xm_xla_device.
  rewrite Hxla, Hrank, Hws. reflexivity.
Qed.

(** X1. Without USE_XLA the name [xm] is never bound: once the rank and
    the world size are known, [setup_model_parallel] fails with
    [NameError] right after [torch.manual_seed(1)], and so does [main],
    having printed, loaded and generated nothing. *)
Theorem main_needs_xla tokenizer_path (temperature top_p : F) max_seq_len
    max_batch_size ckpt_dir dim n_layers n_heads quant n_times
    (st : Proc F) rank world_size :
  USE_XLA rt = false ->
  get_model_parallel_rank rt = inr rank ->
  get_model_parallel_world_size rt = inr world_size ->
  setup_model_parallel rt st
  = (Raise (NameError "xm"), log (EManualSeed 1) st) /\
  main rt tokenizer_path temperature top_p max_seq_len max_batch_size
       ckpt_dir dim n_layers n_heads quant n_times st
  = (Raise (NameError "xm"), log (EManualSeed 1) st).
Proof.
  intros Hxla Hrank Hws. split; [|by eapply main_unbound_xm].
  unfold setup_model_parallel, xm_xla_device.
  rewrite Hxla, Hrank, Hws. reflexivity.
Qed.

(** X2. Without USE_XLA the multi-process flag changes nothing: [mp_main]
    starts no process, runs [main] in the caller and fails there with
    [NameError] on [xm]. *)
Theorem mp_main_falls_back (ds : Devices) (mp : bool) tokenizer_path
    (temperature top_p : F) max_seq_len max_batch_size ckpt_dir dim n_layers
    n_heads quant n_times (st : Proc F) rank world_size :
  USE_XLA rt = false ->
  get_model_parallel_rank rt = inr rank ->
  get_model_parallel_world_size rt = inr world_size ->
  mp_main ds rt mp tokenizer_path temperature top_p max_seq_len
          max_batch_size ckpt_dir dim n_layers n_heads quant n_times st
  = mkLaunch (Raise (NameError "xm"), log (EManualSeed 1) st) [].
Proof.
  intros Hxla Hrank Hws. unfold mp_main.
  rewrite Hxla, andb_false_r. f_equal. by eapply main_unbound_xm.
Qed.

(** X3. Whatever way [setup_model_parallel] ends, it has only seeded, and
    always with 1: it added nothing at all (a rank or world-size query
    failed), or the torch seed alone (no device to be had), or the torch
    seed and the RNG state of the process's device.  It returns exactly in
    the last case, with the rank and world size the runtime reports, and
    it never touches the default precision, [sys.stdout] or gradient
    mode. *)
Theorem setup_model_parallel_seeds (st : Proc F) r st' :
  setup_model_parallel rt st = (r, st') ->
  exists evs,
    st' = record evs st /\
    Forall setup_event evs /\
    (evs = [] \/ evs = [EManualSeed 1] \/
     exists device,
       xla_device rt = inr device /\
       evs = [EManualSeed 1; ESetRngState 1 device]) /\
    (forall rank world_size,
       r = Ok (rank, world_size) ->
       get_model_parallel_rank rt = inr rank /\
       get_model_parallel_world_size rt = inr world_size /\
       exists device,
         xla_device rt = inr device /\
         evs = [EManualSeed 1; ESetRngState 1 device]) /\
    (forall e,
       r = Raise e ->
       forall device, evs <> [EManualSeed 1; ESetRngState 1 device]).
Proof.
  unfold setup_model_parallel, xm_xla_device. intros Hrun.
  destruct (get_model_parallel_rank rt) as [w|rank] eqn:Hrank.
  { injection Hrun as <- <-. exists []. rewrite record_nil.
    split_and!; try done. by left. }
  destruct (get_model_parallel_world_size rt) as [w|ws] eqn:Hws.
  { injection Hrun as <- <-. exists []. rewrite record_nil.
    split_and!; try done. by left. }
  destruct (USE_XLA rt).
  - destruct (xla_device rt) as [w|device] eqn:Hdev.
    + injection Hrun as <- <-. exists [EManualSeed 1].
      split_and!; try done; [by repeat constructor | by right; left].
    + injection Hrun as <- <-. exists [EManualSeed 1; ESetRngState 1 device].
      split_and!; try done.
      * unfold record, log. simpl. by rewrite <- app_assoc.
      * by repeat constructor.
      * right. right. by exists device.
      * intros ? ? [= <- <-]. split_and!; try done. by exists device.
  - injection Hrun as <- <-. exists [EManualSeed 1].
    split_and!; try done; [by repeat constructor | by right; left].
Qed.

End MoreOnSetup.

Section MoreOnLoad.

Context {F : Type} (rt : Runtime F).

Variables (ckpt_dir tokenizer_path : string) (rank world_size : Z)
          (max_seq_len max_batch_size : Z) (device : Device)
          (dim n_layers n_heads : Z) (quant : bool).

Local Abbreviation load_here :=
  (load rt ckpt_dir tokenizer_path rank world_size max_seq_len max_batch_size
        device dim n_layers n_heads quant).

(** [load] looks at [rank] only to index the sorted shard list. *)
Lemma load_rank_through_index rank' (st : Proc F) :
  (forall listing,
     glob rt ckpt_dir "*.pth" = inr listing ->
     getitem (sorted listing) rank = getitem (sorted listing) rank') ->
  load_here st
  = load rt ckpt_dir tokenizer_path rank' world_size max_seq_len
         max_batch_size device dim n_layers n_heads quant st.
Proof.
  intros Hsame. unfold load, bind, time_time, print, emit, call.
  destruct (truthy ckpt_dir); [|done].
  destruct (glob rt ckpt_dir "*.pth") as [w|listing] eqn:Hglob; [done|].
  unfold ret. case_bool_decide; [|reflexivity].
  rewrite (Hsame listing eq_refl). reflexivity.
Qed.

Lemma getitem_negative {A} (l : list A) (i : Z) :
  - Z.of_nat (length l) <= i < 0 ->
  getitem l i = getitem l (i + Z.of_nat (length l)).
Proof.
  intros Hi. unfold getitem. cbv zeta.
  rewrite (proj2 (Z.ltb_lt i 0)) by lia.
  by rewrite !(proj2 (Z.ltb_ge (i + Z.of_nat (length l)) 0)) by lia.
Qed.

Lemma getitem_too_negative {A} (l : list A) (i : Z) :
  i < - Z.of_nat (length l) -> getitem l i = Raise IndexError.
Proof.
  intros Hi. unfold getitem. cbv zeta.
  rewrite (proj2 (Z.ltb_lt i 0)) by lia.
  by rewrite (proj2 (Z.ltb_lt (i + Z.of_nat (length l)) 0)) by lia.
Qed.

(** X4. The indexing of the shard list does not reject a negative rank:
    with [k] shards listed, a rank between [-k] and [-1] makes [load] do
    exactly what it does for rank [rank + k], reading that shard; only a
    rank below [-k] fails, with [IndexError], when the shard count equals
    the world size. *)
Theorem load_negative_rank_wraps (listing : list string) (st : Proc F) :
  glob rt ckpt_dir "*.pth" = inr listing ->
  (- Z.of_nat (length listing) <= rank < 0 ->
   load_here st
   = load rt ckpt_dir tokenizer_path (rank + Z.of_nat (length listing))
          world_size max_seq_len max_batch_size device dim n_layers n_heads
          quant st) /\
  (rank < - Z.of_nat (length listing) ->
   ckpt_dir <> "" ->
   world_size = Z.of_nat (length listing) ->
   (load_here st).1 = Raise IndexError).
Proof.
  intros Hglob. split.
  - intros Hrank. apply load_rank_through_index.
    intros listing' Hglob'. rewrite Hglob in Hglob'. injection Hglob' as <-.
    rewrite <- (length_sorted listing). apply getitem_negative.
    by rewrite length_sorted.
  - intros Hrank Hdir%truthy_true Hws.
    erewrite load_shard_index_error; eauto.
    + by rewrite length_sorted.
    + apply getitem_too_negative. by rewrite length_sorted.
Qed.

(** X5. With a checkpoint directory the hyperparameters come from its
    manifest: the [dim], [n_layers], [n_heads] and [quant] arguments of
    [load] are not looked at. *)
Theorem load_with_checkpoint_ignores_overrides dim' n_layers' n_heads' quant'
    (st : Proc F) :
  ckpt_dir <> "" ->
  load_here st
  = load rt ckpt_dir tokenizer_path rank world_size max_seq_len
         max_batch_size device dim' n_layers' n_heads' quant' st.
Proof.
  intros Hdir%truthy_true. unfold load. by rewrite Hdir.
Qed.

(** X6. A manifest that is not a JSON object, or that has a
    [max_seq_len] or [max_batch_size] entry of its own, makes [load] fail
    with [TypeError] at the [ModelArgs] call: the shard and the manifest
    have been read by then, the tokenizer is never built and the default
    precision is untouched. *)
Theorem load_rejects_manifest (listing : list string) name ckpt text manifest
    (st : Proc F) :
  ckpt_dir <> "" ->
  glob rt ckpt_dir "*.pth" = inr listing ->
  world_size = Z.of_nat (length listing) ->
  getitem (sorted listing) rank = Ok name ->
  torch_load rt ckpt_dir name = inr ckpt ->
  read_text rt ckpt_dir "params.json" = inr text ->
  json_loads rt text = inr manifest ->
  match manifest with
  | VDict items =>
      is_Some ((list_to_map items : gmap string (PyVal F)) !! "max_seq_len") \/
      is_Some ((list_to_map items : gmap string (PyVal F)) !! "max_batch_size")
  | _ => True
  end ->
  exists msg,
    load_here st
    = (Raise (TypeError msg),
       mkProc (default_tensor_type st) (stdout st) (grad_enabled st)
              (S (ticks st))
              (trace st ++ [EPrint (stdout st) (PStr "Loading");
                            EGlob ckpt_dir "*.pth";
                            ETorchLoad ckpt_dir name;
                            EReadText ckpt_dir "params.json"])).
Proof.
  intros Hdir%truthy_true Hglob Hws Hname Hckpt Htext Hjson Hbad.
  rewrite <- (length_sorted listing) in Hws.
  assert (forall K : gmap string (PyVal F) -> M F (LLaMA F),
            load_here st
            = bind (kwargs_of manifest)
                (fun kw =>
                   bind (ModelArgs_call rt max_seq_len max_batch_size kw)
                        (fun margs => K margs))
                (record [EPrint (stdout st) (PStr "Loading");
                         EGlob ckpt_dir "*.pth"; ETorchLoad ckpt_dir name;
                         EReadText ckpt_dir "params.json"]
                   (mkProc (default_tensor_type st) (stdout st)
                           (grad_enabled st) (S (ticks st)) (trace st))) ->
            exists msg,
              bind (kwargs_of manifest)
                (fun kw =>
                   bind (ModelArgs_call rt max_seq_len max_batch_size kw)
                        (fun margs => K margs))
                (record [EPrint (stdout st) (PStr "Loading");
                         EGlob ckpt_dir "*.pth"; ETorchLoad ckpt_dir name;
                         EReadText ckpt_dir "params.json"]
                   (mkProc (default_tensor_type st) (stdout st)
                           (grad_enabled st) (S (ticks st)) (trace st)))
              = (Raise (TypeError msg),
                 mkProc (default_tensor_type st) (stdout st) (grad_enabled st)
                   (S (ticks st))
                   (trace st ++ [EPrint (stdout st) (PStr "Loading");
                                 EGlob ckpt_dir "*.pth";
                                 ETorchLoad ckpt_dir name;
                                 EReadText ckpt_dir "params.json"])))
    as Hfail.
  { intros K _. destruct manifest; try by eexists.
    eexists. unfold bind, kwargs_of, ret, ModelArgs_call.
    by rewrite bool_decide_eq_true_2. }
  edestruct Hfail as [msg Hmsg]; [|exists msg; rewrite <- Hmsg].
  all: unfold load.
  all: unfold bind at 1; unfold bind at 1; simpl.
  all: unfold bind at 1; unfold bind at 2; simpl.
  all: unfold bind at 1; rewrite Hdir.
  all: unfold bind at 1; unfold bind at 1; simpl.
  all: unfold bind at 1; rewrite Hglob; simpl.
  all: unfold bind at 1; rewrite bool_decide_eq_true_2 by done; simpl.
  all: unfold bind at 1; rewrite Hname; simpl.
  all: unfold bind at 1; unfold bind at 1; simpl.
  all: unfold bind at 1; rewrite Hckpt; simpl.
  all: unfold bind at 1; unfold bind at 1; simpl.
  all: unfold bind at 1; rewrite Htext; simpl.
  all: unfold bind at 1; rewrite Hjson; simpl.
  all: unfold record, log; simpl; rewrite <- !app_assoc; simpl.
  all: reflexivity.
Qed.

Lemma filter_all {A} (P : A -> Prop) `{!forall x, Decision (P x)}
    (l : list A) :
  Forall P l -> filter P l = l.
Proof.
  induction 1 as [|x l Hx _ IH]; [done|].
  by rewrite filter_cons_True, IH.
Qed.

Lemma filter_none {A} (P : A -> Prop) `{!forall x, Decision (P x)}
    (l : list A) :
  Forall (fun x => ~ P x) l -> filter P l = [].
Proof.
  induction 1 as [|x l Hx _ IH]; [done|].
  by rewrite filter_cons_False.
Qed.

(** In a sorted list without repetition, the names strictly before the
    one at index [i] are the [i] names in front of it. *)
Lemma names_before_sorted (listing : list string) (i : nat) name :
  NoDup listing ->
  sorted listing !! i = Some name ->
  length (names_before name listing) = i.
Proof.
  intros Hnodup Hi. unfold names_before.
  rewrite <- (sorted_Permutation listing) at 1.
  rewrite <- (sorted_Permutation listing) in Hnodup.
  pose proof (Sorted_StronglySorted _ _ (sorted_Sorted listing)) as Hsorted.
  assert (i < length (sorted listing))%nat as Hlt by by eapply lookup_lt_Some.
  rewrite <- (take_drop_middle _ _ _ Hi) in Hnodup, Hsorted |- *.
  apply NoDup_app in Hnodup as (_ & Hfront & Hback%NoDup_cons).
  destruct Hback as [Hback _].
  apply StronglySorted_app in Hsorted as (Hcross & _ & Htail).
  apply StronglySorted_cons in Htail as [Hafter _].
  rewrite filter_app, filter_cons_False by tauto.
  rewrite (filter_all _ (take i _)), (filter_none _ (drop (S i) _)).
  - rewrite app_nil_r, length_take. lia.
  - apply Forall_forall. intros x Hx [Hne Hle].
    rewrite Forall_forall in Hafter.
    by apply Hne, (anti_symm String.le); [|apply Hafter].
  - apply Forall_forall. intros x Hx. split.
    + intros ->. apply (Hfront _ Hx), list_elem_of_here.
    + apply Hcross; [done | apply list_elem_of_here].
Qed.

(** X7. The shard [load] reads is chosen by rank among the names alone:
    when the directory lists each name once and the rank is not negative,
    the file read is a name of the directory with exactly [rank] names of
    the directory strictly before it in lexicographic order. *)
Theorem load_reads_rank_th_smallest (listing : list string) (st : Proc F)
    r st' d name :
  glob rt ckpt_dir "*.pth" = inr listing ->
  NoDup listing ->
  0 <= rank ->
  load_here st = (r, st') ->
  ETorchLoad d name ∈ drop (length (trace st)) (trace st') ->
  name ∈ listing /\
  length (names_before name listing) = Z.to_nat rank.
Proof.
  intros Hglob Hnodup Hrank Hrun Hin.
  destruct (spec_load _ _ _ _ _ _ _ _ _ _ _ _ _ _ _ Hrun)
    as [(evs & Htrace & Hevs & _) _].
  rewrite Htrace, drop_app_length in Hin.
  rewrite Forall_forall in Hevs.
  destruct (Hevs _ Hin) as (_ & _ & listing' & Hglob' & _ & Hname).
  rewrite Hglob in Hglob'. injection Hglob' as <-.
  unfold getitem in Hname. cbv zeta in Hname.
  rewrite !(proj2 (Z.ltb_ge rank 0)) in Hname by lia.
  destruct (sorted listing !! Z.to_nat rank) as [name'|] eqn:Hlookup;
    [|done].
  injection Hname as ->. split.
  - rewrite <- (sorted_Permutation listing).
    by eapply list_elem_of_lookup_2.
  - by apply names_before_sorted.
Qed.

(** X8. What a call of [load] touches, however it ends: it prints only
    its two progress lines, to the stream it found; it lists only the
    checkpoint directory, for [*.pth], and reads only [params.json] there;
    it builds the tokenizer of the given path only; it moves tensors to the
    given device only; it never seeds, rebinds [sys.stdout] or generates;
    and it leaves [sys.stdout] and the gradient mode as they were. *)
Theorem load_footprint (st : Proc F) r st' :
  load_here st = (r, st') ->
  stdout st' = stdout st /\
  grad_enabled st' = grad_enabled st /\
  exists evs,
    trace st' = trace st ++ evs /\
    Forall
      (fun e =>
         match e with
         | EPrint s w =>
             s = stdout st /\
             (w = PStr "Loading" \/ exists seconds, w = PLoaded seconds)
         | EGlob d p => d = ckpt_dir /\ p = "*.pth" /\ ckpt_dir <> ""
         | ETorchLoad d _ => d = ckpt_dir /\ ckpt_dir <> ""
         | EReadText d n => d = ckpt_dir /\ n = "params.json" /\ ckpt_dir <> ""
         | ELoadStateDict => ckpt_dir <> ""
         | ETokenizer path => path = tokenizer_path
         | ETensorTo _ d | EModuleTo d => d = device
         | ESetDefaultTensorType _ | ETransformer _ _ => True
         | EManualSeed _ | ESetRngState _ _ | EOpenDevNull
         | EGenerate _ _ _ _ _ | EGenerated _ => False
         end) evs.
Proof.
  intros Hrun.
  destruct (spec_load _ _ _ _ _ _ _ _ _ _ _ _ _ _ _ Hrun)
    as [(evs & Htrace & Hevs & _ & Hstdout & Hcoherent & Hgrad) _].
  assert (Forall keeps_stdout evs) as Hkeeps.
  { eapply Forall_impl; [exact Hevs|]. apply load_event_keeps_stdout. }
  split_and!.
  - by rewrite Hstdout, replay_stdout_unopened.
  - done.
  - exists evs. split; [done|].
    pose proof (coherent_prints _ _ Hcoherent (or_introl Hkeeps)) as Hprints.
    rewrite Forall_forall in Hevs, Hprints. apply Forall_forall.
    intros e He. specialize (Hevs e He). specialize (Hprints e He).
    destruct e; simpl in Hevs; try done;
      rewrite ?truthy_true in Hevs; try tauto.
    split; [by eapply Hprints | done].
Qed.

Lemma getitem_IndexError {A} (l : list A) (i : Z) :
  getitem l i = Raise IndexError ->
  i < - Z.of_nat (length l) \/ Z.of_nat (length l) <= i.
Proof.
  unfold getitem. cbv zeta. intros Hget.
  destruct (Z.ltb_spec i 0) as [Hneg|Hpos].
  - destruct (Z.ltb_spec (i + Z.of_nat (length l)) 0) as [?|Hj]; [lia|].
    destruct (l !! Z.to_nat (i + Z.of_nat (length l))) eqn:Hl; [done|].
    apply lookup_ge_None in Hl. lia.
  - destruct (Z.ltb_spec i 0) as [?|_]; [lia|].
    destruct (l !! Z.to_nat i) eqn:Hl; [done|].
    apply lookup_ge_None in Hl. lia.
Qed.

(** X9. The exceptions of [load].  Whatever a collaborator raises comes
    through as it is; of its own [load] raises only, and only with a
    checkpoint directory whose listing succeeded: the [AssertionError] of
    the shard count, when the count differs from the world size; the
    [IndexError] of the shard indexing, when the count matches and the rank
    is outside [-count, count); a [TypeError] at the [ModelArgs] call, when
    the count matches.  In particular [checkpoint] is bound whenever line
    86 reads it, and without a checkpoint directory [load] fails only
    where a collaborator does. *)
Theorem load_exceptions (st : Proc F) e st' :
  load_here st = (Raise e, st') ->
  (exists what, e = External what) \/
  ckpt_dir <> "" /\
  ((exists msg, e = TypeError msg) \/
   exists listing,
     glob rt ckpt_dir "*.pth" = inr listing /\
     (e = AssertionError (shard_count_message (length listing) world_size) /\
      world_size <> Z.of_nat (length listing) \/
      e = IndexError /\
      world_size = Z.of_nat (length listing) /\
      (rank < - Z.of_nat (length listing) \/
       Z.of_nat (length listing) <= rank))).
Proof.
  intros Hrun.
  destruct (spec_load _ _ _ _ _ _ _ _ _ _ _ _ _ _ _ Hrun) as [_ Hpost].
  destruct e; simpl in Hpost; try done.
  - destruct Hpost as (Hdir%truthy_true & listing & Hglob & Hws & ->).
    rewrite length_sorted in *. right. split; [done|]. right.
    exists listing. split; [done|]. by left.
  - destruct Hpost as (Hdir%truthy_true & listing & Hglob & Hws & Hget).
    apply getitem_IndexError in Hget. rewrite length_sorted in *.
    right. split; [done|]. right. exists listing. split; [done|]. by right.
  - apply truthy_true in Hpost. right. split; [done|]. left. by eexists.
  - left. by eexists.
Qed.

(** X10. The order of operations of a [load] that returns.  It adds to
    the trace, in this order and nothing else: the [Loading] line; with a
    checkpoint directory the listing, the read of the shard and the read of
    the manifest; the tokenizer, built before the default precision is
    touched; the override of the default precision and the construction of
    the model under it; with a checkpoint directory the application of the
    weights; the move of the module with one transfer for each parameter,
    then one transfer for each cache tensor, in index order; the return to
    [torch.FloatTensor]; the [Loaded] line.  The shard named in it is the
    one at index [rank] of the sorted listing, the hyperparameters are
    what [ModelArgs] made of the manifest (or of the four arguments) with
    the tokenizer's [n_words] written over [vocab_size], and the tensors
    moved are those of the model [Transformer] constructed from them, with
    the weights of the shard applied when there is one.  The clock is read
    twice, first of all and just before the last line, which shows the
    difference. *)
Theorem load_order_of_operations (st : Proc F) g st' :
  load_here st = (Ok g, st') ->
  exists shard kw margs (m0 m : Transformer F),
    let override := if USE_CUDA rt then CudaHalfTensor else BFloat16Tensor in
    let args := <["vocab_size" := VInt (n_words (tokenizer g))]> margs in
    Tokenizer_init rt tokenizer_path = inr (tokenizer g) /\
    ModelArgs_init rt (model_kwargs max_seq_len max_batch_size kw)
      = inr margs /\
    Transformer_init rt args override = inr m0 /\
    match shard with
    | None =>
        ckpt_dir = "" /\
        kw = list_to_map (explicit_params dim n_layers n_heads quant) /\
        m = m0
    | Some name =>
        ckpt_dir <> "" /\
        exists listing ckpt text items,
          glob rt ckpt_dir "*.pth" = inr listing /\
          world_size = Z.of_nat (length listing) /\
          getitem (sorted listing) rank = Ok name /\
          torch_load rt ckpt_dir name = inr ckpt /\
          read_text rt ckpt_dir "params.json" = inr text /\
          json_loads rt text = inr (VDict items) /\
          kw = list_to_map items /\
          load_state_dict rt m0 ckpt = inr m
    end /\
    trace st'
    = trace st ++
      load_trace (stdout st) ckpt_dir tokenizer_path device shard override
        args m (fsub rt (clock rt (S (ticks st))) (clock rt (ticks st))) /\
    model g
    = mkTransformer (params m)
        (map (fun kt => (kt.1, moved device kt.2)) (parameters m))
        (map (map (moved device)) (cache_kvs m)) /\
    latency_list g = [] /\
    per_token_latency_list g = [] /\
    ticks st' = S (S (ticks st)).
Proof.
  intros Hrun.
  apply load_Ok in Hrun
    as (kw & margs & tok & m0 & m1 & shard & Hshard & Hmargs & Htok & Hm0 &
        -> & ->).
  exists (fst <$> shard), kw, margs, m0, m1. simpl.
  split_and!; try done.
  destruct shard as [[name ckpt]|]; simpl.
  - destruct Hshard
      as (Hdir%truthy_true & listing & text & items & Hglob & Hws & Hname &
          Hckpt & Htext & Hitems & Hkw & Hm1).
    split; [done|]. exists listing, ckpt, text, items.
    rewrite length_sorted in Hws. by split_and!.
  - destruct Hshard as (Hdir & Hkw & Hm1). split_and!; try done.
    by destruct ckpt_dir.
Qed.

End MoreOnLoad.

Section MoreOnMain.

Context {F : Type} (rt : Runtime F).

Variables (tokenizer_path : string) (temperature top_p : F)
          (max_seq_len max_batch_size : Z) (ckpt_dir : string)
          (dim n_layers n_heads : Z) (quant : bool).

Implicit Types (st : Proc F) (P : Event F -> Prop).

Local Abbreviation main_here :=
  (main rt tokenizer_path temperature top_p max_seq_len max_batch_size
        ckpt_dir dim n_layers n_heads quant).

Local Abbreviation main_generation_here :=
  (main_generation rt tokenizer_path temperature top_p max_seq_len
                   max_batch_size ckpt_dir dim n_layers n_heads quant).

Lemma bind_inv {A B} (c : M F A) (k : A -> M F B) st r st' :
  bind c k st = (r, st') ->
  (exists a st1, c st = (Ok a, st1) /\ k a st1 = (r, st')) \/
  (exists e, c st = (Raise e, st') /\ r = Raise e).
Proof.
  unfold bind. destruct (c st) as [[a|e] st1]; [eauto|].
  intros [= <- <-]. eauto.
Qed.

Lemma run_extends P st st' :
  run P st st' -> exists evs, trace st' = trace st ++ evs /\ Forall P evs.
Proof. intros (evs & -> & HP & _). by exists evs. Qed.

Lemma spec_setup_model_parallel P :
  (forall e, setup_event e -> P e) ->
  spec P (setup_model_parallel rt) (fun _ => True).
Proof.
  intros HP. unfold setup_model_parallel.
  eapply spec_bind; [apply spec_call | done |]. intros rank _.
  eapply spec_bind; [apply spec_call | done |]. intros world_size _.
  eapply spec_bind; [apply spec_emit; [done | by apply HP] | done |].
  intros [] _.
  eapply spec_bind; [apply spec_xm_xla_device | done |]. intros device _.
  eapply spec_bind; [apply spec_emit; [done | by apply HP] | done |].
  intros [] _. eapply spec_any, spec_ret.
Qed.

Lemma spec_generate_events P g ps n device :
  (forall e, generation_event e -> P e) ->
  spec P (generate rt g ps n device temperature top_p) (fun _ => True).
Proof.
  intros HP. unfold generate.
  eapply spec_bind; [apply spec_emit; [done | by apply HP] | done |].
  intros [] _.
  eapply spec_bind; [apply spec_call | done |]. intros [[res lat] ptl] _.
  eapply spec_bind; [apply spec_emit; [done | by apply HP] | done |].
  intros [] _. eapply spec_any, spec_ret.
Qed.

Lemma spec_print_results_events P results :
  (forall e, generation_event e -> P e) ->
  spec P (@print_results F results) (fun _ => True).
Proof.
  intros HP. induction results as [|x results IH]; simpl.
  - eapply spec_any, spec_ret.
  - eapply spec_bind; [apply spec_print; intros s; by apply HP | done |].
    intros [] _.
    eapply spec_bind; [apply spec_print; intros s; by apply HP | done |].
    intros [] _. exact IH.
Qed.

Lemma spec_generate_call_events P g :
  (forall e, generation_event e -> P e) ->
  spec P
       (no_grad (do device <- xm_xla_device rt;
                 generate rt g prompts 256 device temperature top_p))
       (fun _ => True).
Proof.
  intros HP. apply spec_no_grad.
  eapply spec_bind; [apply spec_xm_xla_device | done |]. intros device _.
  by apply spec_generate_events.
Qed.

Lemma spec_timed_calls_events P n g :
  (forall e, generation_event e -> P e) ->
  spec P (timed_calls rt n temperature top_p g) (fun _ => True).
Proof.
  intros HP. revert g. induction n as [|n IH]; intros g; simpl.
  - eapply spec_any, spec_ret.
  - eapply spec_bind; [by apply spec_generate_call_events | done |].
    intros [results g'] _.
    eapply spec_bind; [by apply spec_print_results_events | done |].
    intros [] _. apply IH.
Qed.

Lemma spec_main_report_events P n_times g :
  (forall s w, P (EPrint s w)) ->
  spec P (main_report rt ckpt_dir max_batch_size n_times g) (fun _ => True).
Proof.
  intros HP. unfold main_report.
  do 3 (eapply spec_bind; [by apply spec_print | done |]; intros [] _).
  eapply spec_bind; [apply spec_of_result | done |]. intros mean _.
  eapply spec_bind; [by apply spec_print | done |]. intros [] _.
  eapply spec_bind; [apply spec_of_result | done |]. intros mean_per_token _.
  eapply spec_any. by apply spec_print.
Qed.

Lemma setup_event_preparation (e : Event F) :
  setup_event e -> preparation_event e.
Proof. by destruct e. Qed.

(** How far a run of lines 110-162 got: it stopped in the set-up or in
    [load], or [load] returned and the rest came after. *)
Lemma main_generation_inv n_times st r st' :
  main_generation_here n_times st = (r, st') ->
  (exists before,
     trace st' = trace st ++ before /\
     Forall preparation_event before /\
     exists e, r = Raise e) \/
  exists rank world_size device st0 g0 st1 before evs,
    get_model_parallel_rank rt = inr rank /\
    get_model_parallel_world_size rt = inr world_size /\
    xla_device rt = inr device /\
    load rt ckpt_dir tokenizer_path rank world_size max_seq_len
         max_batch_size device dim n_layers n_heads quant st0
    = (Ok g0, st1) /\
    trace st1 = trace st ++ before /\
    Forall preparation_event before /\
    trace st' = trace st1 ++ evs /\
    Forall generation_event evs /\
    default_tensor_type st' = default_tensor_type st1.
Proof.
  unfold main_generation. intros H.
  apply bind_inv in H as [([rank ws] & sa & Hsetup & H)|(e & Hsetup & ->)].
  2: { left.
       destruct (run_extends _ _ _
                   (proj1 (spec_setup_model_parallel _
                             setup_event_preparation _ _ _ Hsetup)))
         as (before & ? & ?).
       exists before. split_and!; try done. by eexists. }
  assert (run preparation_event st sa) as Hsa.
  { eapply (spec_setup_model_parallel _ setup_event_preparation), Hsetup. }
  apply setup_model_parallel_Ok in Hsetup as (Hrank & Hws & _ & _).
  apply bind_inv in H as [([] & sb & Hred & H)|(e & Hred & ->)].
  2: { by destruct (0 <? rank). }
  assert (run preparation_event sa sb) as Hsb.
  { destruct (0 <? rank).
    - by eapply (spec_redirect preparation_event).
    - injection Hred as <-. apply run_refl. }
  pose proof (run_trans _ _ _ _ Hsa Hsb) as Hst0.
  apply bind_inv in H as [(device & sc & Hdev & H)|(e & Hdev & ->)].
  2: { left.
       destruct (run_extends preparation_event st st') as (before & ? & ?).
       { eapply run_trans; [exact Hst0|]. eapply spec_xm_xla_device, Hdev. }
       exists before. split_and!; try done. by eexists. }
  apply xm_xla_device_Ok in Hdev as (_ & Hdev & ->).
  apply bind_inv in H as [(g0 & st1 & Hload & H)|(e & Hload & ->)].
  2: { left.
       destruct (run_extends preparation_event st st') as (before & ? & ?).
       { eapply run_trans; [exact Hst0|].
         eapply run_weaken; [apply load_event_preparation|].
         eapply spec_load, Hload. }
       exists before. split_and!; try done. by eexists. }
  right.
  destruct (run_extends preparation_event st st1) as (before & Hbefore & Hprep).
  { eapply run_trans; [exact Hst0|].
    eapply run_weaken; [apply load_event_preparation|].
    eapply spec_load, Hload. }
  assert (run generation_event st1 st')
    as (evs & Hevs & Hgen & Hdefault & _).
  { eapply (spec_bind generation_event _ _ (fun _ => True) (fun _ => True));
      [| | |exact H].
    - by apply spec_generate_call_events.
    - done.
    - intros [results g'] _. by apply spec_timed_calls_events. }
  exists rank, ws, device, sb, g0, st1, before, evs.
  split_and!; try done.
  rewrite Hdefault. apply replay_default_unset.
  eapply Forall_impl; [exact Hgen|]. by intros [].
Qed.

Lemma preparation_not_generate (e : Event F) :
  preparation_event e -> is_generate e = true -> False.
Proof. by destruct e. Qed.

Lemma preparation_not_env_info (e : Event F) :
  preparation_event e -> is_env_info e -> False.
Proof.
  destruct e as [s w| | | | | | | | | | | | | |]; try done.
  destruct w; try done. simpl. intros [|[]]; done.
Qed.

Lemma generation_not_env_info (e : Event F) :
  generation_event e -> is_env_info e -> False.
Proof. destruct e as [s w| | | | | | | | | | | | | |]; try done. by destruct w. Qed.

(** X11. No generation call before [load] has returned, whatever way the
    run ends: if [main] made a generation call at all, then the rank, the
    world size and the device were obtained, [load] was called with them
    and returned, everything until its return was set-up and loading,
    and the call came after.  A run that fails in the set-up or in [load]
    has generated nothing. *)
Theorem main_generates_after_load n_times (st : Proc F) r st' e :
  main_here n_times st = (r, st') ->
  e ∈ drop (length (trace st)) (trace st') ->
  is_generate e = true ->
  exists rank world_size device st0 g0 st1 before evs,
    get_model_parallel_rank rt = inr rank /\
    get_model_parallel_world_size rt = inr world_size /\
    xla_device rt = inr device /\
    load rt ckpt_dir tokenizer_path rank world_size max_seq_len
         max_batch_size device dim n_layers n_heads quant st0
    = (Ok g0, st1) /\
    trace st1 = trace st ++ before /\
    Forall preparation_event before /\
    trace st' = trace st1 ++ evs /\
    e ∈ evs.
Proof.
  intros Hrun Hin Hgen. unfold main in Hrun.
  assert (exists sg rg later,
            main_generation_here n_times st = (rg, sg) /\
            trace st' = trace sg ++ later /\
            Forall (fun x => is_generate x = false) later)
    as (sg & rg & later & Hg & Hlater & Hquiet).
  { apply bind_inv in Hrun as [(g & sg & Hg & Hrep)|(x & Hg & ->)].
    - destruct (run_extends (fun x => is_generate x = false) sg st')
        as (later & ? & ?).
      { by eapply (spec_main_report_events (fun x => is_generate x = false)),
             Hrep. }
      by exists sg, (Ok g), later.
    - exists st', (Raise x), []. by rewrite app_nil_r. }
  destruct (main_generation_inv _ _ _ _ Hg)
    as [(before & Hbefore & Hprep & _)
       |(rank & ws & device & st0 & g0 & st1 & before & evs & Hrank & Hws &
         Hdev & Hload & Hbefore & Hprep & Hevs & _)].
  - exfalso. rewrite Hlater, Hbefore, <- app_assoc, drop_app_length in Hin.
    rewrite Forall_forall in Hprep, Hquiet.
    apply elem_of_app in Hin as [Hin|Hin].
    + by eapply preparation_not_generate; [apply Hprep|].
    + by rewrite (Hquiet _ Hin) in Hgen.
  - exists rank, ws, device, st0, g0, st1, before, (evs ++ later).
    split_and!; try done.
    + by rewrite Hlater, Hevs, app_assoc.
    + rewrite Hlater, Hevs, Hbefore, <- !app_assoc, drop_app_length in Hin.
      apply elem_of_app in Hin as [Hin|Hin]; [|done].
      rewrite Forall_forall in Hprep.
      by destruct (preparation_not_generate e); [apply Hprep|].
Qed.

(** X12. The report comes after all the generation calls, whatever way
    the run ends: if [main] printed the environment line of the report,
    then set-up, loading, the warm-up call and every timed call had
    returned, the latency record had its [1 + n_times] entries (one for a
    negative [n_times]), and nothing of the report had been printed until
    then.  A run in which a generation call fails prints no report. *)
Theorem main_reports_after_generation n_times (st : Proc F) r st' e :
  main_here n_times st = (r, st') ->
  e ∈ drop (length (trace st)) (trace st') ->
  is_env_info e ->
  exists g st1 before evs,
    main_generation_here n_times st = (Ok g, st1) /\
    length (latency_list g) = S (Z.to_nat n_times) /\
    length (per_token_latency_list g) = S (Z.to_nat n_times) /\
    trace st1 = trace st ++ before /\
    Forall (fun x => ~ is_env_info x) before /\
    trace st' = trace st1 ++ evs /\
    e ∈ evs.
Proof.
  intros Hrun Hin Hinfo. unfold main in Hrun.
  assert (forall rg sg,
            main_generation_here n_times st = (rg, sg) ->
            exists before,
              trace sg = trace st ++ before /\
              Forall (fun x => ~ is_env_info x) before) as Hphase.
  { intros rg sg Hg.
    destruct (main_generation_inv _ _ _ _ Hg)
      as [(before & Hbefore & Hprep & _)
         |(rank & ws & device & st0 & g0 & st1 & before & evs & _ & _ &
           _ & _ & Hbefore & Hprep & Hevs & Hgen & _)].
    - exists before. split; [done|]. eapply Forall_impl; [exact Hprep|].
      intros x Hx Hi. by eapply preparation_not_env_info.
    - exists (before ++ evs). split; [by rewrite Hevs, Hbefore, app_assoc|].
      apply Forall_app. split.
      + eapply Forall_impl; [exact Hprep|].
        intros x Hx Hi. by eapply preparation_not_env_info.
      + eapply Forall_impl; [exact Hgen|].
        intros x Hx Hi. by eapply generation_not_env_info. }
  apply bind_inv in Hrun as [(g & sg & Hg & Hrep)|(x & Hg & ->)].
  - destruct (Hphase _ _ Hg) as (before & Hbefore & Hquiet).
    destruct (run_extends (fun _ => True) sg st') as (evs & Hevs & _).
    { by eapply (spec_main_report_events (fun _ => True)), Hrep. }
    exists g, sg, before, evs. split_and!; try done.
    + apply main_generation_Ok in Hg
        as (rank & world_size & device & st0 & g0 & sl & warmup & lat & ptl &
            batches & lats & ptls & _ & _ & _ & _ & Hload & _ & Hl & _ &
            -> & _).
      destruct (spec_load _ _ _ _ _ _ _ _ _ _ _ _ _ _ _ Hload)
        as [_ (Hlat & _)].
      simpl. rewrite Hlat. simpl. by rewrite Hl.
    + apply main_generation_Ok in Hg
        as (rank & world_size & device & st0 & g0 & sl & warmup & lat & ptl &
            batches & lats & ptls & _ & _ & _ & _ & Hload & _ & _ & Hp &
            -> & _).
      destruct (spec_load _ _ _ _ _ _ _ _ _ _ _ _ _ _ _ Hload)
        as [_ (_ & Hptl & _)].
      simpl. rewrite Hptl. simpl. by rewrite Hp.
    + rewrite Hevs, Hbefore, <- app_assoc, drop_app_length in Hin.
      apply elem_of_app in Hin as [Hin|Hin]; [|done].
      rewrite Forall_forall in Hquiet. by destruct (Hquiet _ Hin).
  - exfalso. destruct (Hphase _ _ Hg) as (before & Hbefore & Hquiet).
    rewrite Hbefore, drop_app_length in Hin.
    rewrite Forall_forall in Hquiet. by destruct (Hquiet _ Hin).
Qed.

(** With no timed iteration the warm-up is the only call and the only
    entry of either record. *)
Lemma only_the_warmup n_times st g st1 :
  n_times <= 0 ->
  main_generation_here n_times st = (Ok g, st1) ->
  (exists device,
     List.filter is_generate (drop (length (trace st)) (trace st1))
     = [EGenerate prompts 256 device temperature top_p]) /\
  exists latency per_token,
    latency_list g = [latency] /\ per_token_latency_list g = [per_token].
Proof.
  intros Hn Hgen.
  apply main_generation_Ok in Hgen
    as (rank & world_size & device & st0 & g0 & sl & warmup & lat & ptl &
        batches & lats & ptls & _ & _ & Hst0 & _ & Hload & Hb & Hl & Hp &
        -> & ->).
  unfold range_len in *.
  destruct (spec_load _ _ _ _ _ _ _ _ _ _ _ _ _ _ _ Hload)
    as [(evs & Htrace & Hevs & _) (Hlat & Hptl & _)].
  destruct batches; [|simpl in Hb; lia].
  destruct lats; [|simpl in Hl; lia]. destruct ptls; [|simpl in Hp; lia].
  split; [exists device|exists lat, ptl; simpl; by rewrite Hlat, Hptl].
  simpl. rewrite Htrace, Hst0, <- !app_assoc, drop_app_length.
  rewrite !List.filter_app. simpl.
  rewrite (filter_generate_preparation evs).
  - by destruct (0 <? rank).
  - eapply Forall_impl; [exact Hevs|]. apply load_event_preparation.
Qed.

(** X13. A negative [n_times] is not rejected: the loop body never runs, so
    the warm-up is the only generation call, both sums are over an empty
    slice, and the run goes on to print a full report whose means are
    [0 / n_times] and that quotient times 1000, whatever latency the
    warm-up had. *)
Theorem main_with_negative_n_times n_times (st : Proc F) g st1 q k :
  n_times < 0 ->
  main_generation_here n_times st = (Ok g, st1) ->
  int_truediv rt 0 n_times = Some q ->
  float_of_int rt 1000 = Some k ->
  (exists device,
     List.filter is_generate (drop (length (trace st)) (trace st1))
     = [EGenerate prompts 256 device temperature top_p]) /\
  main_here n_times st
  = (Ok tt,
     record (report_events rt (stdout st1) ckpt_dir n_times max_batch_size
                           (PyFloat q) (PyFloat (fmul rt q k))) st1).
Proof.
  intros Hn Hgen Hq Hk.
  destruct (only_the_warmup n_times st g st1 ltac:(lia) Hgen)
    as [Hcalls (lat & ptl & Hlat & Hptl)].
  split; [done|].
  rewrite (main_after_generation _ _ _ _ _ _ _ _ _ _ _ _ _ _ _ Hgen).
  unfold main_report. rewrite Hlat, Hptl.
  unfold bind, print, of_result, result_bind, py_sum, py_truediv, py_mul.
  simpl. rewrite (proj2 (Z.eqb_neq n_times 0)) by lia. rewrite Hq. simpl.
  rewrite Hk. simpl. unfold record, report_events. simpl.
  unfold log. simpl. by rewrite <- !app_assoc.
Qed.

(** X14. Nothing in [main] changes the default tensor type once [load]
    has returned: a run that has made a generation call ends, however it
    ends, with [torch.FloatTensor] as the default, whatever the default
    was at the start; so does, in particular, a run that returns. *)
Theorem main_leaves_full_precision n_times (st : Proc F) r st' :
  main_here n_times st = (r, st') ->
  (forall e,
     e ∈ drop (length (trace st)) (trace st') ->
     is_generate e = true ->
     default_tensor_type st' = FloatTensor) /\
  (r = Ok tt -> default_tensor_type st' = FloatTensor).
Proof.
  intros Hrun. unfold main in Hrun.
  assert (exists rg sg later,
            main_generation_here n_times st = (rg, sg) /\
            trace st' = trace sg ++ later /\
            Forall (fun x => is_generate x = false) later /\
            default_tensor_type st' = default_tensor_type sg /\
            (r = Ok tt -> exists g, rg = Ok g))
    as (rg & sg & later & Hg & Hlater & Hquiet & Hsame & Hok).
  { apply bind_inv in Hrun as [(g & sg & Hg & Hrep)|(x & Hg & ->)].
    - assert (run (fun x => is_generate x = false /\
                             forall t, x <> ESetDefaultTensorType t) sg st')
        as (later & ? & Hlater & Hdefault & _).
      { by eapply (spec_main_report_events
                     (fun x => is_generate x = false /\
                               forall t, x <> ESetDefaultTensorType t)),
             Hrep. }
      exists (Ok g), sg, later. split_and!; try done.
      + eapply Forall_impl; [exact Hlater|]. by intros x [? _].
      + rewrite Hdefault. apply replay_default_unset.
        eapply Forall_impl; [exact Hlater|]. by intros x [_ ?].
      + intros _. by exists g.
    - exists (Raise x), st', []. rewrite app_nil_r. by split_and!. }
  assert (forall e,
            e ∈ drop (length (trace st)) (trace st') ->
            is_generate e = true ->
            default_tensor_type st' = FloatTensor) as Hcalls.
  { intros e Hin Hgen.
    destruct (main_generation_inv _ _ _ _ Hg)
      as [(before & Hbefore & Hprep & _)
         |(rank & ws & device & st0 & g0 & st1 & before & evs & _ & _ & _ &
           Hload & _ & _ & _ & _ & Hdefault)].
    - exfalso. rewrite Hlater, Hbefore, <- app_assoc, drop_app_length in Hin.
      rewrite Forall_forall in Hprep, Hquiet.
      apply elem_of_app in Hin as [Hin|Hin].
      + by eapply preparation_not_generate; [apply Hprep|].
      + by rewrite (Hquiet _ Hin) in Hgen.
    - rewrite Hsame, Hdefault.
      apply load_Ok in Hload
        as (kw & margs & tok & m0 & m1 & shard & _ & _ & _ & _ & _ & ->).
      done. }
  split; [exact Hcalls|].
  intros Hr. destruct (Hok Hr) as [g ->].
  destruct (main_generation_inv _ _ _ _ Hg)
    as [(before & _ & _ & x & [=])
       |(rank & ws & device & st0 & g0 & st1 & before & evs & _ & _ & _ &
         Hload & _ & _ & _ & _ & Hdefault)].
  rewrite Hsame, Hdefault.
  apply load_Ok in Hload
    as (kw & margs & tok & m0 & m1 & shard & _ & _ & _ & _ & _ & ->).
  done.
Qed.

End MoreOnMain.

(** * The further properties on the concrete world *)

Section MoreOnDemo.

Import Demo.

Lemma main_needs_xla_witness :
  (main (runtime false 0 1 [] true) "tokenizer.model" temperature top_p 512
        32 "" 4096 32 32 false 3 proc0).1
  = Raise (NameError "xm").
Proof.
  rewrite (proj2 (main_needs_xla (runtime false 0 1 [] true)
                    "tokenizer.model" temperature top_p 512 32 "" 4096 32 32
                    false 3 proc0 0 1 eq_refl eq_refl eq_refl)).
  reflexivity.
Defined.

Lemma mp_main_falls_back_witness :
  children (mp_main devices (runtime false 0 1 [] true) true "tokenizer.model"
                    temperature top_p 512 32 "" 4096 32 32 false 3 proc0)
  = [].
Proof.
  rewrite (mp_main_falls_back (runtime false 0 1 [] true) devices true
             "tokenizer.model" temperature top_p 512 32 "" 4096 32 32 false 3
             proc0 0 1 eq_refl eq_refl eq_refl).
  reflexivity.
Defined.

Lemma setup_model_parallel_seeds_witness :
  exists evs,
    (setup_model_parallel (runtime true 1 2 shards true) proc0).2
    = record evs proc0 /\
    Forall setup_event evs.
Proof.
  destruct (setup_model_parallel (runtime true 1 2 shards true) proc0)
    as [r st'] eqn:Hrun.
  destruct (setup_model_parallel_seeds _ _ _ _ Hrun) as (evs & Hst & Hevs & _).
  exists evs. split; [exact Hst | exact Hevs].
Defined.

Lemma load_negative_rank_wraps_witness :
  load (runtime true 1 2 shards true) "ckpt" "tokenizer.model" (-1) 2 512 32
       (xla 1) 4096 32 32 false proc0
  = loaded.
Proof.
  rewrite (proj1 (load_negative_rank_wraps (runtime true 1 2 shards true)
                    "ckpt" "tokenizer.model" (-1) 2 512 32 (xla 1) 4096 32 32
                    false shards proc0 eq_refl)).
  - reflexivity.
  - simpl. lia.
Defined.

Lemma load_with_checkpoint_ignores_overrides_witness :
  loaded
  = load (runtime true 1 2 shards true) "ckpt" "tokenizer.model" 1 2 512 32
         (xla 1) 1 1 1 true proc0.
Proof.
  apply (load_with_checkpoint_ignores_overrides (runtime true 1 2 shards true)
           "ckpt" "tokenizer.model" 1 2 512 32 (xla 1) 4096 32 32 false
           1 1 1 true proc0).
  discriminate.
Defined.

Lemma load_rejects_manifest_witness :
  exists msg,
    (load (with_manifest (runtime true 1 2 shards true)
                         manifest_with_max_seq_len)
          "ckpt" "tokenizer.model" 1 2 512 32 (xla 1) 4096 32 32 false
          proc0).1
    = Raise (TypeError msg).
Proof.
  destruct (load_rejects_manifest
              (with_manifest (runtime true 1 2 shards true)
                             manifest_with_max_seq_len)
              "ckpt" "tokenizer.model" 1 2 512 32 (xla 1) 4096 32 32 false
              shards "consolidated.01.pth"
              [("consolidated.01.pth", mkTensor 7 cpu)] "{}"
              manifest_with_max_seq_len proc0)
    as [msg Hrun].
  - discriminate.
  - reflexivity.
  - reflexivity.
  - reflexivity.
  - reflexivity.
  - reflexivity.
  - reflexivity.
  - left. exists (VInt 2048). reflexivity.
  - exists msg. rewrite Hrun. reflexivity.
Defined.

Lemma load_reads_rank_th_smallest_witness :
  length (names_before "consolidated.01.pth" shards) = 1%nat.
Proof.
  apply (load_reads_rank_th_smallest (runtime true 1 2 shards true)
           "ckpt" "tokenizer.model" 1 2 512 32 (xla 1) 4096 32 32 false
           shards proc0 loaded.1 loaded.2 "ckpt" "consolidated.01.pth").
  - reflexivity.
  - apply (bool_decide_unpack _). vm_compute. exact I.
  - lia.
  - apply surjective_pairing.
  - apply list_elem_of_In. vm_compute. right. right. left. reflexivity.
Defined.

Lemma load_footprint_witness :
  stdout loaded_plain.2 = stdout proc0.
Proof.
  destruct loaded_plain as [r st'] eqn:Hrun. unfold loaded_plain in Hrun.
  exact (proj1 (load_footprint _ _ _ _ _ _ _ _ _ _ _ _ _ _ _ Hrun)).
Defined.

Lemma load_exceptions_witness :
  exists what, load_failed.1 = Raise (External what).
Proof.
  destruct load_failed as [[g|e] st'] eqn:Hrun;
    [vm_compute in Hrun; discriminate Hrun|].
  unfold load_failed in Hrun.
  destruct (load_exceptions _ _ _ _ _ _ _ _ _ _ _ _ _ _ _ Hrun)
    as [[what ->]|[Hdir _]].
  - exists what. reflexivity.
  - destruct (Hdir eq_refl).
Defined.

Lemma load_order_of_operations_witness :
  ticks loaded.2 = 2%nat.
Proof.
  destruct loaded as [[g|e] st'] eqn:Hrun;
    [|vm_compute in Hrun; discriminate Hrun].
  unfold loaded in Hrun.
  destruct (load_order_of_operations _ _ _ _ _ _ _ _ _ _ _ _ _ _ _ Hrun)
    as (shard & kw & margs & m0 & m & _ & _ & _ & _ & _ & _ & _ & _ &
        Hticks).
  exact Hticks.
Defined.

Lemma main_generates_after_load_witness :
  exists rank world_size device st0 g0 st1,
    load (runtime true 0 2 shards true) "" "tokenizer.model" rank world_size
         512 32 device 4096 32 32 false st0
    = (Ok g0, st1).
Proof.
  destruct (main_generates_after_load (runtime true 0 2 shards true)
              "tokenizer.model" temperature top_p 512 32 "" 4096 32 32 false
              1 proc0 (run_main 0 1).1 (run_main 0 1).2
              (EGenerate prompts 256 (xla 0) temperature top_p))
    as (rank & world_size & device & st0 & g0 & st1 & before & evs & _ & _ &
        _ & Hload & _).
  - apply surjective_pairing.
  - apply list_elem_of_In. vm_compute.
    repeat (first [left; reflexivity | right]).
  - reflexivity.
  - exists rank, world_size, device, st0, g0, st1. exact Hload.
Defined.

Lemma main_reports_after_generation_witness :
  exists g st1,
    run_main_generation 1 = (Ok g, st1) /\
    length (latency_list g) = 2%nat.
Proof.
  destruct (main_reports_after_generation (runtime true 0 2 shards true)
              "tokenizer.model" temperature top_p 512 32 "" 4096 32 32 false
              1 proc0 (run_main 0 1).1 (run_main 0 1).2
              (EPrint OriginalStdout (PEnvInfo true false true 0)))
    as (g & st1 & before & evs & Hgen & Hlen & _).
  - apply surjective_pairing.
  - apply list_elem_of_In. vm_compute.
    repeat (first [left; reflexivity | right]).
  - exact I.
  - exists g, st1. split; [exact Hgen | exact Hlen].
Defined.

Lemma main_with_negative_n_times_witness :
  (run_main 0 (-1)).1 = Ok tt.
Proof.
  destruct (run_main_generation (-1)) as [[g|e] st1] eqn:Hrun;
    [|vm_compute in Hrun; discriminate Hrun].
  destruct (truediv 0 (-1)) as [q|] eqn:Hq;
    [|vm_compute in Hq; discriminate Hq].
  destruct (to_float 1000) as [k|] eqn:Hk;
    [|vm_compute in Hk; discriminate Hk].
  unfold run_main_generation in Hrun. unfold run_main.
  rewrite (proj2 (main_with_negative_n_times _ _ _ _ _ _ _ _ _ _ _ (-1) _ _ _ q k
                    ltac:(lia) Hrun Hq Hk)).
  reflexivity.
Defined.

Lemma main_leaves_full_precision_witness :
  default_tensor_type
    (main (runtime true 0 2 shards true) "tokenizer.model" temperature top_p
          512 32 "" 4096 32 32 false 3
          (mkProc DoubleTensor OriginalStdout true 0 [])).2
  = FloatTensor.
Proof.
  apply (proj2 (main_leaves_full_precision (runtime true 0 2 shards true)
                  "tokenizer.model" temperature top_p 512 32 "" 4096 32 32
                  false 3 (mkProc DoubleTensor OriginalStdout true 0 [])
                  _ _ (surjective_pairing _))).
  vm_compute. reflexivity.
Defined.

End MoreOnDemo.
